(** * Synapse legal document analyzer: upload and staged analysis workflow

    A shallow embedding of the edge-function server (the Hono application
    with its [simulateAnalysis] background job) and the properties of its
    document status machine.

    Conventions of the embedding.
    - JavaScript values are the JSON fragment the server handles: [value].
      Numbers are exact rationals; the rounding of IEEE doubles is not
      modelled.  An object is an association list in insertion order.
    - A text produced by [new Date(ms).toISOString()] is kept as [VTime ms];
      [new Date(text).getTime()] gives [ms] back.
    - Every [await] and every call into the platform (key-value store,
      identity provider, object storage, clock, timers) is one constructor
      of the program type [prog]; a handler is a [prog response].
    - A program is executed in two ways: [run] runs one program to its end
      with nothing in between; [step] interleaves the calls of all the
      requests, jobs and timers of the system.  Both make a call with
      [exec_head].
    - [console.log] has no effect on the state and is left out.
    - The file URL route and the chat route take what the object storage
      and [Math.random()] answer as parameters; the pages of the client
      (upload page, dashboard, profile page) are embedded as the pure
      functions their state updates are. *)

From Stdlib Require Import Ascii String QArith Qreduction Qround Qcanon.
From stdpp Require Import gmap strings list pretty sorting.

Set Warnings "-register-all".

Close Scope Q_scope.
Close Scope Qc_scope.
Open Scope Z_scope.
Open Scope string_scope.
Open Scope list_scope.

(** ** Strings *)

Module Str.

(** [s.split(sep)] for a one-character separator. *)
Fixpoint split_on (sep : ascii) (s : string) : list string :=
  match s with
  | EmptyString => [""]
  | String c r =>
      if Ascii.eqb c sep then "" :: split_on sep r
      else match split_on sep r with
           | seg :: segs => String c seg :: segs
           | [] => [String c ""]
           end
  end.

(** [arr.pop()] on the result of a split, which is never empty. *)
Definition pop (l : list string) : string := List.last l "".

(** The character class [a-zA-Z0-9.-]. *)
Definition is_name_char (c : ascii) : bool :=
  let n := N_of_ascii c in
  ((48 <=? n) && (n <=? 57) || (65 <=? n) && (n <=? 90)
   || (97 <=? n) && (n <=? 122) || (n =? 46) || (n =? 45))%N.

(** [s.replace(/[^a-zA-Z0-9.-]/g, "_")]. *)
Fixpoint sanitize (s : string) : string :=
  match s with
  | EmptyString => EmptyString
  | String c r => String (if is_name_char c then c else "_"%char) (sanitize r)
  end.

(** Left padding with zeros, as in the fields of an ISO date. *)
Fixpoint zeros (n : nat) : string :=
  match n with O => "" | S m => "0" +:+ zeros m end.

Definition pad (width : nat) (s : string) : string :=
  zeros (width - String.length s) +:+ s.

(** [s.startsWith(prefix)]. *)
Fixpoint starts_with (prefix s : string) : bool :=
  match prefix with
  | EmptyString => true
  | String a prefix' =>
      match s with
      | EmptyString => false
      | String b s' => Ascii.eqb a b && starts_with prefix' s'
      end
  end.

(** The characters of a string as one-character strings. *)
Fixpoint chars (s : string) : list string :=
  match s with
  | EmptyString => []
  | String c r => String c "" :: chars r
  end.

End Str.

(** ** Dates *)

Module Date.

(** Civil date of a day number counted from 1970-01-01. *)
Definition civil_from_days (days : Z) : Z * Z * Z :=
  let z := days + 719468 in
  let era := z / 146097 in
  let doe := z mod 146097 in
  let yoe := (doe - doe / 1460 + doe / 36524 - doe / 146096) / 365 in
  let doy := doe - (365 * yoe + yoe / 4 - yoe / 100) in
  let mp := (5 * doy + 2) / 153 in
  let d := doy - (153 * mp + 2) / 5 + 1 in
  let m := if (mp <? 10)%Z then mp + 3 else mp - 9 in
  let y := yoe + era * 400 + (if (m <=? 2)%Z then 1 else 0) in
  (y, m, d).

Definition year_text (y : Z) : string :=
  if ((0 <=? y) && (y <=? 9999))%Z then Str.pad 4 (pretty y)
  else (if (y <? 0)%Z then "-" else "+") +:+ Str.pad 6 (pretty (Z.abs y)).

(** [new Date(ms).toISOString()]. *)
Definition toISOString (ms : Z) : string :=
  let '(y, m, d) := civil_from_days (ms / 86400000) in
  let r := ms mod 86400000 in
  year_text y +:+ "-" +:+ Str.pad 2 (pretty m) +:+ "-" +:+ Str.pad 2 (pretty d)
  +:+ "T" +:+ Str.pad 2 (pretty (r / 3600000))
  +:+ ":" +:+ Str.pad 2 (pretty (r / 60000 mod 60))
  +:+ ":" +:+ Str.pad 2 (pretty (r / 1000 mod 60))
  +:+ "." +:+ Str.pad 3 (pretty (r mod 1000)) +:+ "Z".

End Date.

(** ** Values and objects *)

Inductive value : Type :=
  | VNull
  | VBool (b : bool)
  | VNum (q : Q)
  | VStr (s : string)
  | VTime (ms : Z)
  | VArr (items : list value)
  | VObj (fields : list (string * value)).

(** An object: its own enumerable properties, in insertion order. *)
Abbreviation obj := (list (string * value)).

Definition VInt (n : Z) : value := VNum (inject_Z n).

Module Js.

(** Property read [o.k]; [None] is [undefined]. *)
Fixpoint get (k : string) (o : obj) : option value :=
  match o with
  | [] => None
  | (k', v) :: r => if String.eqb k' k then Some v else get k r
  end.

(** Property write [o.k = v]: in place when the key exists, appended
    otherwise. *)
Fixpoint set (k : string) (v : value) (o : obj) : obj :=
  match o with
  | [] => [(k, v)]
  | (k', v') :: r =>
      if String.eqb k' k then (k, v) :: r else (k', v') :: set k v r
  end.

(** The text of a string value. *)
Definition as_string (v : value) : option string :=
  match v with
  | VStr s => Some s
  | VTime ms => Some (Date.toISOString ms)
  | _ => None
  end.

Definition indexed {A} (f : A -> value) (l : list A) : obj :=
  imap (fun i x => (pretty i, f x)) l.

(** The own enumerable properties copied by a spread [...v]: the fields of
    an object, the indices of an array or of a string, nothing for the
    other primitives.  (That JavaScript lists integer-like keys first is
    not modelled.) *)
Definition own_props (v : value) : obj :=
  match v with
  | VObj fields => fields
  | VArr items => indexed (fun x => x) items
  | VStr s => indexed VStr (Str.chars s)
  | VTime ms => indexed VStr (Str.chars (Date.toISOString ms))
  | VNull | VBool _ | VNum _ => []
  end.

(** [{...o, ...v}]. *)
Definition spread (o : obj) (props : obj) : obj :=
  fold_left (fun acc kv => set kv.1 kv.2 acc) props o.

(** Truthiness of [x] in [x || d] and [!x]. *)
Definition truthy (v : option value) : bool :=
  match v with
  | None | Some VNull => false
  | Some (VBool b) => b
  | Some (VNum q) => negb (Qeq_bool q 0)
  | Some (VStr s) => negb (String.eqb s "")
  | Some (VTime _) | Some (VArr _) | Some (VObj _) => true
  end.

(** [x || d] with a defined right operand. *)
Definition or_else (x : option value) (d : value) : value :=
  match x with
  | Some v => if truthy x then v else d
  | None => d
  end.

Definition to_number (v : value) : option Q :=
  match v with
  | VNum q => Some q
  | VBool true => Some 1%Q
  | VBool false | VNull => Some 0%Q
  | _ => None
  end.

(** [a + b] when neither operand is (or converts to) a string: the sum of
    the two numbers.  [None] when the operator would concatenate texts,
    which is outside this model. *)
Definition add (a b : value) : option value :=
  match to_number a, to_number b with
  | Some x, Some y => Some (VNum (Qred (x + y)))
  | _, _ => None
  end.

(** [v === s] for a string [s]. *)
Definition is_string (v : option value) (s : string) : bool :=
  match v with
  | Some w => match as_string w with
              | Some t => String.eqb t s
              | None => false
              end
  | None => false
  end.

End Js.

(** ** The platform interface *)

(** An uploaded file part: what the handler reads of a [File]. *)
Module File.
Record t := { name : string; type : string; size : Z }.
End File.

(** The multipart form of an upload, at the types the handler casts its
    entries to: [formData.get("file") as File] and
    [formData.get("fileName") as string]; [None] is an absent entry. *)
Record FormData := { form_file : option File.t; form_fileName : option string }.

(** [c.json(body, status)]. *)
Record response := { status : Z; body : obj }.

Definition json (body : obj) (code : Z) : response :=
  {| status := code; body := body |}.

Definition error_json (msg : string) (code : Z) : response :=
  json [("error", VStr msg)] code.

(** A member of an object literal; a member whose value is [undefined]
    disappears when the record is serialised. *)
Definition member (k : string) (v : option value) : obj :=
  match v with Some x => [(k, x)] | None => [] end.

(** The callback handed to [setTimeout]. *)
Inductive closure := SimulateAnalysis (documentId userId : string).

(** Programs over the platform.  Each constructor but [Ret], [Throw] and
    [Unmodelled] is one call, with the rest of the program waiting for
    its answer. *)
Inductive prog (A : Type) : Type :=
  | Ret (a : A)
  | Throw
  | Unmodelled
  | KvGet (key : string) (k : option obj -> prog A)
  | KvSet (key : string) (v : obj) (k : prog A)
  | KvGetByPrefix (prefix : string) (k : list obj -> prog A)
  | AuthGetUser (token : string) (k : option string -> prog A)
  | AuthCreateUser (email password name : option value)
      (k : option string -> prog A)
  | StorageUpload (path : string) (file : File.t) (k : bool -> prog A)
  | RandomUUID (k : string -> prog A)
  | DateNow (k : Z -> prog A)
  | SetTimeout (c : closure) (ms : Z) (k : prog A)
  | Delay (ms : Z) (k : prog A).

Arguments Ret {A} a.
Arguments Throw {A}.
Arguments Unmodelled {A}.
Arguments KvGet {A} key k.
Arguments KvSet {A} key v k.
Arguments KvGetByPrefix {A} prefix k.
Arguments AuthGetUser {A} token k.
Arguments AuthCreateUser {A} email password name k.
Arguments StorageUpload {A} path file k.
Arguments RandomUUID {A} k.
Arguments DateNow {A} k.
Arguments SetTimeout {A} c ms k.
Arguments Delay {A} ms k.

Notation "x <- 'await' e ;; k" := (e (fun x => k))
  (at level 100, e at next level, right associativity, only parsing).
Notation "'await' e ;; k" := (e k)
  (at level 100, e at next level, right associativity, only parsing).

(** [try { p } catch { h }]: every [Throw] of [p] continues as [h]. *)
Fixpoint try_catch {A} (p : prog A) (h : prog A) : prog A :=
  match p with
  | Ret a => Ret a
  | Throw => h
  | Unmodelled => Unmodelled
  | KvGet key k => KvGet key (fun x => try_catch (k x) h)
  | KvSet key v k => KvSet key v (try_catch k h)
  | KvGetByPrefix pre k => KvGetByPrefix pre (fun x => try_catch (k x) h)
  | AuthGetUser tok k => AuthGetUser tok (fun x => try_catch (k x) h)
  | AuthCreateUser e pw n k => AuthCreateUser e pw n (fun x => try_catch (k x) h)
  | StorageUpload path f k => StorageUpload path f (fun x => try_catch (k x) h)
  | RandomUUID k => RandomUUID (fun x => try_catch (k x) h)
  | DateNow k => DateNow (fun x => try_catch (k x) h)
  | SetTimeout c ms k => SetTimeout c ms (try_catch k h)
  | Delay ms k => Delay ms (try_catch k h)
  end.

(** Keys of the three kinds of record. *)
Definition profile_key (userId : string) : string := "user_profile:" +:+ userId.
Definition document_key (documentId : string) : string := "document:" +:+ documentId.
Definition analysis_key (documentId : string) : string := "analysis:" +:+ documentId.

Arguments profile_key : simpl never.
Arguments document_key : simpl never.
Arguments analysis_key : simpl never.


(** ** The server *)

(** The bearer token: [c.req.header("Authorization")?.split(" ")[1]],
    rejected when missing or empty. *)
Definition access_token (authorization : option string) : option string :=
  match authorization with
  | None => None
  | Some h =>
      match Str.split_on " " h !! 1%nat with
      | Some t => if String.eqb t "" then None else Some t
      | None => None
      end
  end.

(** Authentication middleware.  [AuthGetUser] answers [Some id] when the
    identity provider reports no error and a user with a non-empty id. *)
Definition requireAuth (authorization : option string)
    (next : string -> prog response) : prog response :=
  match access_token authorization with
  | None => Ret (error_json "Authorization header required" 401)
  | Some accessToken =>
      user <- await AuthGetUser accessToken ;;
      match user with
      | None => Ret (error_json "Unauthorized" 401)
      | Some userId => next userId
      end
  end.

(** Member [k] of a parsed JSON body in a destructuring pattern. *)
Definition prop (v : value) (k : string) : option value :=
  match v with
  | VObj fields => Js.get k fields
  | _ => None
  end.

(** User registration.  [body] is the parsed request body, [None] when
    [c.req.json()] rejects. *)
Definition signup (body : option value) : prog response :=
  try_catch
    match body with
    | None | Some VNull => Throw
    | Some b =>
        let email := prop b "email" in
        let password := prop b "password" in
        let name := prop b "name" in
        created <- await AuthCreateUser email password name ;;
        match created with
        | None => Ret (error_json "Failed to create user account" 400)
        | Some id =>
            now <- await DateNow ;;
            await KvSet (profile_key id)
              ([("id", VStr id)] ++ member "email" email ++ member "name" name
               ++ [("created_at", VTime now);
                   ("documents_analyzed", VInt 0);
                   ("subscription_tier", VStr "free")]) ;;
            Ret (json [("user", VObj [("id", VStr id)])] 200)
        end
    end
    (Ret (error_json "Failed to process signup request" 500)).

(** Get user profile. *)
Definition get_profile (userId : string) : prog response :=
  try_catch
    (profile <- await KvGet (profile_key userId) ;;
     match profile with
     | None => Ret (error_json "Profile not found" 404)
     | Some p => Ret (json [("profile", VObj p)] 200)
     end)
    (Ret (error_json "Failed to fetch profile" 500)).

(** Update user profile. *)
Definition put_profile (userId : string) (body : option value) : prog response :=
  try_catch
    match body with
    | None => Throw
    | Some updates =>
        currentProfile <- await KvGet (profile_key userId) ;;
        match currentProfile with
        | None => Ret (error_json "Profile not found" 404)
        | Some current =>
            now <- await DateNow ;;
            let updatedProfile :=
              Js.set "updated_at" (VTime now)
                (Js.spread current (Js.own_props updates)) in
            await KvSet (profile_key userId) updatedProfile ;;
            Ret (json [("profile", VObj updatedProfile)] 200)
        end
    end
    (Ret (error_json "Failed to update profile" 500)).

Definition allowedTypes : list string :=
  [ "application/pdf";
    "application/vnd.openxmlformats-officedocument.wordprocessingml.document";
    "application/msword" ].

(** [allowedTypes.includes(t)]. *)
Definition includes (l : list string) (t : string) : bool :=
  existsb (String.eqb t) l.

(** [(formData.get("fileName") as string) || file.name]; [None] when the
    right operand is evaluated on a missing file, which throws. *)
Definition display_name (form : FormData) : option string :=
  match form_fileName form with
  | Some s => if String.eqb s "" then File.name <$> form_file form else Some s
  | None => File.name <$> form_file form
  end.

(** The record written by the upload handler. *)
Definition new_document (documentId userId fileName uniqueFileName : string)
    (file : File.t) (now : Z) : obj :=
  [ ("id", VStr documentId);
    ("user_id", VStr userId);
    ("name", VStr fileName);
    ("file_path", VStr uniqueFileName);
    ("file_type", VStr (File.type file));
    ("file_size", VInt (File.size file));
    ("uploaded_at", VTime now);
    ("analysis_status", VStr "pending");
    ("analysis_progress", VInt 0) ].

(** Upload document.  [form] is [None] when the body is not form data. *)
Definition upload_document (userId : string) (form : option FormData)
    : prog response :=
  try_catch
    match form with
    | None => Throw
    | Some formData =>
        match display_name formData with
        | None => Throw
        | Some fileName =>
            match form_file formData with
            | None => Ret (error_json "No file provided" 400)
            | Some file =>
                if negb (includes allowedTypes (File.type file)) then
                  Ret (error_json
                    "Invalid file type. Please upload PDF or Word documents only." 400)
                else
                  let fileExtension := Str.pop (Str.split_on "." (File.name file)) in
                  stamp <- await DateNow ;;
                  let uniqueFileName :=
                    userId +:+ "/" +:+ pretty stamp +:+ "_"
                    +:+ Str.sanitize fileName +:+ "." +:+ fileExtension in
                  uploadError <- await StorageUpload uniqueFileName file ;;
                  if uploadError : bool then
                    Ret (error_json "Failed to upload document" 500)
                  else
                    documentId <- await RandomUUID ;;
                    now <- await DateNow ;;
                    let document :=
                      new_document documentId userId fileName uniqueFileName file now in
                    await KvSet (document_key documentId) document ;;
                    await SetTimeout (SimulateAnalysis documentId userId) 1000 ;;
                    Ret (json [("document", VObj document)] 200)
            end
        end
    end
    (Ret (error_json "Failed to process document upload" 500)).

(** [new Date(v).getTime()] for a text written by [toISOString]; [None]
    is the invalid date of every other operand the handlers never store. *)
Definition getTime (v : option value) : option Z :=
  match v with
  | Some (VTime ms) => Some ms
  | _ => None
  end.

(** The comparator of the listing; a [NaN] difference counts as [0]. *)
Definition by_upload_desc (a b : obj) : Z :=
  match getTime (Js.get "uploaded_at" b), getTime (Js.get "uploaded_at" a) with
  | Some tb, Some ta => tb - ta
  | _, _ => 0
  end.

(** [arr.sort(cmp)]: the stable sort, written as an insertion sort. *)
Fixpoint insert_by {A} (cmp : A -> A -> Z) (x : A) (l : list A) : list A :=
  match l with
  | [] => [x]
  | y :: r => if (0 <? cmp x y)%Z then y :: insert_by cmp x r else x :: y :: r
  end.

Definition sort_by {A} (cmp : A -> A -> Z) (l : list A) : list A :=
  foldr (insert_by cmp) [] l.

Definition owned_by (userId : string) (doc : obj) : bool :=
  Js.is_string (Js.get "user_id" doc) userId.

(** Get user documents. *)
Definition get_documents (userId : string) : prog response :=
  try_catch
    (documents <- await KvGetByPrefix "document:" ;;
     let userDocuments :=
       sort_by by_upload_desc (List.filter (owned_by userId) documents) in
     Ret (json [("documents", VArr (VObj <$> userDocuments))] 200))
    (Ret (error_json "Failed to fetch documents" 500)).

(** Get document analysis. *)
Definition get_analysis (userId documentId : string) : prog response :=
  try_catch
    (document <- await KvGet (document_key documentId) ;;
     match document with
     | None => Ret (error_json "Document not found" 404)
     | Some d =>
         if negb (owned_by userId d) then
           Ret (error_json "Document not found" 404)
         else
           analysis <- await KvGet (analysis_key documentId) ;;
           Ret (json (member "analysis" (VObj <$> analysis)) 200)
     end)
    (Ret (error_json "Failed to fetch analysis" 500)).

(** ** The analysis stage runner *)

Record stage_info := { stage : string; progress : Z; message : string }.

Definition stages : list stage_info :=
  [ {| stage := "extracting"; progress := 25;
       message := "Extracting clauses from document..." |};
    {| stage := "classifying"; progress := 50;
       message := "Classifying clause types..." |};
    {| stage := "analyzing"; progress := 75;
       message := "Analyzing risk factors..." |};
    {| stage := "complete"; progress := 100;
       message := "Analysis complete" |} ].

Definition clause (id type text : string) (risk_score : Z)
    (explanation : string) (suggestions : list string) : value :=
  VObj [ ("id", VStr id); ("type", VStr type); ("text", VStr text);
         ("risk_score", VInt risk_score); ("explanation", VStr explanation);
         ("suggestions", VArr (VStr <$> suggestions)) ].

Definition mock_clauses : list value :=
  [ clause "1" "liability"
      "The Company shall not be liable for any indirect, incidental, special, consequential, or punitive damages..."
      7
      "High risk - Very broad liability limitation that may not be enforceable in all jurisdictions."
      [ "Consider mutual liability limitations";
        "Add carve-outs for gross negligence" ];
    clause "2" "termination"
      "Either party may terminate this agreement with thirty (30) days written notice..."
      4
      "Medium risk - Standard termination clause but lacks specific breach triggers."
      [ "Add termination for cause provisions"; "Specify cure periods" ];
    clause "3" "confidentiality"
      "Each party agrees to maintain in confidence all Confidential Information..."
      2
      "Low risk - Well-structured confidentiality provision with proper definitions."
      [ "Consider adding return of materials clause" ] ].

(** The mock analysis results. *)
Definition mock_analysis (documentId : string) (now : Z) : obj :=
  [ ("document_id", VStr documentId);
    ("clauses", VArr mock_clauses);
    ("summary", VStr
       "This contract contains standard commercial terms with some areas requiring attention. The liability limitation clause is particularly broad and may need revision.");
    ("overall_risk_score", VNum (43 # 10));
    ("missing_clauses",
       VArr (VStr <$> ["Force Majeure"; "Dispute Resolution"; "Governing Law"]));
    ("compliance_score", VInt 78);
    ("analyzed_at", VTime now) ].

(** One turn of the loop: wait, re-read the record, overwrite its status
    and progress when it is still there. *)
Definition run_stage (documentId : string) (s : stage_info)
    (next : prog unit) : prog unit :=
  await Delay 2000 ;;
  document <- await KvGet (document_key documentId) ;;
  match document with
  | Some d =>
      await KvSet (document_key documentId)
        (Js.set "analysis_progress" (VInt (progress s))
           (Js.set "analysis_status" (VStr (stage s)) d)) ;;
      next
  | None => next
  end.

(** [for (const stage of stages) { ... }] followed by [next]. *)
Definition run_stages (documentId : string) (l : list stage_info)
    (next : prog unit) : prog unit :=
  foldr (run_stage documentId) next l.

(** What follows the loop: the analysis record, then the owner's counter. *)
Definition finish_analysis (documentId userId : string) : prog unit :=
  now <- await DateNow ;;
  await KvSet (analysis_key documentId) (mock_analysis documentId now) ;;
  profile <- await KvGet (profile_key userId) ;;
  match profile with
  | Some p =>
      match Js.add (Js.or_else (Js.get "documents_analyzed" p) (VInt 0)) (VInt 1) with
      | Some n =>
          await KvSet (profile_key userId) (Js.set "documents_analyzed" n p) ;;
          Ret tt
      | None => Unmodelled
      end
  | None => Ret tt
  end.

Definition simulateAnalysis (documentId userId : string) : prog unit :=
  run_stages documentId stages (finish_analysis documentId userId).

(** The callback of a timer. *)
Definition callback (c : closure) : prog unit :=
  match c with
  | SimulateAnalysis documentId userId => simulateAnalysis documentId userId
  end.

(** ** Requests *)

Inductive request :=
  | PostSignup (body : option value)
  | GetProfile (authorization : option string)
  | PutProfile (authorization : option string) (body : option value)
  | PostUpload (authorization : option string) (form : option FormData)
  | GetDocuments (authorization : option string)
  | GetAnalysis (authorization : option string) (documentId : string).

(** The routes of the application behind their middleware. *)
Definition app_fetch (r : request) : prog response :=
  match r with
  | PostSignup body => signup body
  | GetProfile a => requireAuth a get_profile
  | PutProfile a body => requireAuth a (fun userId => put_profile userId body)
  | PostUpload a form => requireAuth a (fun userId => upload_document userId form)
  | GetDocuments a => requireAuth a get_documents
  | GetAnalysis a documentId =>
      requireAuth a (fun userId => get_analysis userId documentId)
  end.

(** ** The key-value store *)

Module kv.

(** Modelled from the spec: the key-value store module [kv_store.tsx] is
    not among the sources.  It is the persistent mapping from string keys
    to structured records of the system overview, with get, set, delete
    and prefix scan.  Every value the server sets is an object, so the
    store maps keys to objects; a key never set reads as [None]. *)
Definition get (key : string) (m : gmap string obj) : option obj := m !! key.

(** Modelled from the spec: set writes or overwrites the record of a key. *)
Definition set (key : string) (v : obj) (m : gmap string obj) : gmap string obj :=
  <[key := v]> m.

(** Modelled from the spec: delete removes the record of a key. *)
Definition del (key : string) (m : gmap string obj) : gmap string obj :=
  delete key m.

(** Modelled from the spec: the prefix scan returns the records of all
    keys that start with the prefix, in the order the store lists them. *)
Definition getByPrefix (prefix : string) (m : gmap string obj) : list obj :=
  snd <$> List.filter (fun e => Str.starts_with prefix e.1) (map_to_list m).

End kv.

(** ** Execution *)

(** What a program acts on: the store, the timers set and not yet fired,
    and the history of [kv.set] calls, oldest first. *)
Record world := {
  store : gmap string obj;
  timers : list (closure * Z);
  writes : list (string * obj)
}.

(** What the platform answers to one call; each call reads its own field. *)
Record answer := {
  now : Z;                      (* the clock *)
  uuid : string;                (* crypto.randomUUID() *)
  uploadError : bool;           (* storage upload failed *)
  user : option string;         (* auth.getUser: id of the token's user *)
  created : option string       (* auth.admin.createUser: id of the new user *)
}.

(** One call of a program against the world. *)
Definition exec_head {A} (a : answer) (w : world) (p : prog A)
    : option (world * prog A) :=
  match p with
  | Ret _ | Throw | Unmodelled => None
  | KvGet key k => Some (w, k (kv.get key (store w)))
  | KvSet key v k =>
      Some ({| store := kv.set key v (store w); timers := timers w;
               writes := writes w ++ [(key, v)] |}, k)
  | KvGetByPrefix pre k => Some (w, k (kv.getByPrefix pre (store w)))
  | AuthGetUser _ k => Some (w, k (user a))
  | AuthCreateUser _ _ _ k => Some (w, k (created a))
  | StorageUpload _ _ k => Some (w, k (uploadError a))
  | RandomUUID k => Some (w, k (uuid a))
  | DateNow k => Some (w, k (now a))
  | SetTimeout c ms k =>
      Some ({| store := store w; timers := timers w ++ [(c, ms)];
               writes := writes w |}, k)
  | Delay _ k => Some (w, k)
  end.

Inductive outcome (A : Type) : Type :=
  | Returned (a : A)
  | Threw
  | OutOfModel.

Arguments Returned {A} a.
Arguments Threw {A}.
Arguments OutOfModel {A}.

(** A program run to its end with no other program in between; the
    platform's answer to the [n]-th call is [e n]. *)
Fixpoint run {A} (e : nat -> answer) (n : nat) (w : world) (p : prog A)
    : world * outcome A :=
  match p with
  | Ret a => (w, Returned a)
  | Throw => (w, Threw)
  | Unmodelled => (w, OutOfModel)
  | KvGet key k => run e (S n) w (k (kv.get key (store w)))
  | KvSet key v k =>
      run e (S n)
        {| store := kv.set key v (store w); timers := timers w;
           writes := writes w ++ [(key, v)] |} k
  | KvGetByPrefix pre k => run e (S n) w (k (kv.getByPrefix pre (store w)))
  | AuthGetUser _ k => run e (S n) w (k (user (e n)))
  | AuthCreateUser _ _ _ k => run e (S n) w (k (created (e n)))
  | StorageUpload _ _ k => run e (S n) w (k (uploadError (e n)))
  | RandomUUID k => run e (S n) w (k (uuid (e n)))
  | DateNow k => run e (S n) w (k (now (e n)))
  | SetTimeout c ms k =>
      run e (S n)
        {| store := store w; timers := timers w ++ [(c, ms)];
           writes := writes w |} k
  | Delay _ k => run e (S n) w k
  end.

(** A world holding [m] and nothing else. *)
Definition at_rest (m : gmap string obj) : world :=
  {| store := m; timers := []; writes := [] |}.

(** ** The system: requests, jobs and timers interleaved *)

Inductive task :=
  | Handler (p : prog response)
  | Job (p : prog unit).

Definition task_step (a : answer) (w : world) (t : task) : option (world * task) :=
  match t with
  | Handler p => prod_map id Handler <$> exec_head a w p
  | Job p => prod_map id Job <$> exec_head a w p
  end.

(** Whether the next call of a program draws an identifier. *)
Definition draws_uuid {A} (p : prog A) : bool :=
  match p with
  | RandomUUID _ => true
  | _ => false
  end.

Definition task_draws (t : task) : bool :=
  match t with
  | Handler p => draws_uuid p
  | Job p => draws_uuid p
  end.

Record system := {
  sys : world;
  pool : list task;             (* requests and jobs in flight or ended *)
  issued : list string          (* identifiers drawn so far *)
}.

Definition boot : system :=
  {| sys := at_rest ∅; pool := []; issued := [] |}.

(** The moves of the system.  A request starts its handler; a task makes
    its next call, an identifier drawn being new; a timer fires and starts
    its callback.  With [deletions] the environment may also delete a
    Document record through the store's delete; no handler does. *)
Inductive step (deletions : bool) : system -> system -> Prop :=
  | step_request s r :
      step deletions s
        {| sys := sys s; pool := pool s ++ [Handler (app_fetch r)];
           issued := issued s |}
  | step_task s (l1 l2 : list task) t a w' t' :
      pool s = l1 ++ t :: l2 ->
      task_step a (sys s) t = Some (w', t') ->
      (task_draws t = true -> uuid a ∉ issued s) ->
      step deletions s
        {| sys := w'; pool := l1 ++ t' :: l2;
           issued := if task_draws t then uuid a :: issued s else issued s |}
  | step_timer s (l1 l2 : list (closure * Z)) c ms :
      timers (sys s) = l1 ++ (c, ms) :: l2 ->
      step deletions s
        {| sys := {| store := store (sys s); timers := l1 ++ l2;
                     writes := writes (sys s) |};
           pool := pool s ++ [Job (callback c)]; issued := issued s |}
  | step_delete s documentId :
      deletions = true ->
      step deletions s
        {| sys := {| store := kv.del (document_key documentId) (store (sys s));
                     timers := timers (sys s); writes := writes (sys s) |};
           pool := pool s; issued := issued s |}.

Inductive reachable (deletions : bool) : system -> Prop :=
  | reachable_boot : reachable deletions boot
  | reachable_step s s' :
      reachable deletions s -> step deletions s s' -> reachable deletions s'.

(** ** Reading records *)

Definition status_of (d : obj) : option value := Js.get "analysis_status" d.
Definition progress_of (d : obj) : option value := Js.get "analysis_progress" d.

(** ** Auxiliary definitions of the proofs *)

(** The record a stage writes over [d]. *)
Definition staged (s : stage_info) (d : obj) : obj :=
  Js.set "analysis_progress" (VInt (progress s))
    (Js.set "analysis_status" (VStr (stage s)) d).

(** The world after a stage that found the record [d]. *)
Definition after_stage (documentId : string) (s : stage_info) (d : obj)
    (w : world) : world :=
  {| store := <[document_key documentId := staged s d]> (store w);
     timers := timers w;
     writes := writes w ++ [(document_key documentId, staged s d)] |}.

(** The writes of a history that went to one key. *)
Definition writes_to (key : string) (w : world) : list obj :=
  snd <$> List.filter (fun e => String.eqb e.1 key) (writes w).

(** The world after the analysis record is written. *)
Definition with_analysis (documentId : string) (t : Z) (w : world) : world :=
  {| store := <[analysis_key documentId := mock_analysis documentId t]> (store w);
     timers := timers w;
     writes := writes w ++ [(analysis_key documentId, mock_analysis documentId t)] |}.

(** The world after the owner's profile is written back. *)
Definition with_profile (userId : string) (p : obj) (w : world) : world :=
  {| store := <[profile_key userId := p]> (store w);
     timers := timers w;
     writes := writes w ++ [(profile_key userId, p)] |}.

(** The status and progress a record reads as, when they are a text and
    a whole number. *)
Definition reading (d : obj) : option (string * Z) :=
  match status_of d, progress_of d with
  | Some (VStr s), Some (VNum (Qmake p 1)) => Some (s, p)
  | _, _ => None
  end.

(** The path of a document through the stages. *)
Definition stage_path : list (string * Z) :=
  [("pending", 0); ("extracting", 25); ("classifying", 50);
   ("analyzing", 75); ("complete", 100)].

(** A platform for the examples: the clock advances one second per call,
    identifiers are numbered, storage and the identity provider succeed. *)
Definition demo_env (n : nat) : answer :=
  {| now := 1700000000000 + 1000 * Z.of_nat n;
     uuid := "doc-" +:+ pretty n;
     uploadError := false;
     user := Some "alice";
     created := Some "alice" |}.

Definition demo_file : File.t :=
  {| File.name := "lease.pdf"; File.type := "application/pdf"; File.size := 52133 |}.

Definition demo_document : obj :=
  new_document "doc-2" "alice" "lease.pdf"
    "alice/1700000000000_lease.pdf.pdf" demo_file 1700000003000.

Definition demo_profile (count : Z) : obj :=
  [ ("id", VStr "alice"); ("email", VStr "alice@example.org");
    ("name", VStr "Alice"); ("created_at", VTime 1690000000000);
    ("documents_analyzed", VInt count); ("subscription_tier", VStr "free") ].


(** The time a Document record was uploaded at. *)
Definition upload_time (d : obj) : option Z := getTime (Js.get "uploaded_at" d).

(** [a] may come before [b] in a listing, newest first. *)
Definition newest_first (a b : obj) : Prop :=
  match upload_time a, upload_time b with
  | Some ta, Some tb => tb <= ta
  | _, _ => False
  end.

(** The programs that never set a key of the class [P]. *)
Fixpoint never_sets {A} (P : string -> Prop) (p : prog A) : Prop :=
  match p with
  | Ret _ | Throw | Unmodelled => True
  | KvGet _ k => forall x, never_sets P (k x)
  | KvSet key _ k => ~ P key /\ never_sets P k
  | KvGetByPrefix _ k => forall x, never_sets P (k x)
  | AuthGetUser _ k => forall x, never_sets P (k x)
  | AuthCreateUser _ _ _ k => forall x, never_sets P (k x)
  | StorageUpload _ _ k => forall x, never_sets P (k x)
  | RandomUUID k => forall x, never_sets P (k x)
  | DateNow k => forall x, never_sets P (k x)
  | SetTimeout _ _ k => never_sets P k
  | Delay _ k => never_sets P k
  end.

Definition is_profile_key (key : string) : Prop :=
  exists userId, key = profile_key userId.

(** The requests that write a Profile record: registration creates it,
    the profile update rewrites it. *)
Definition writes_profile (r : request) : bool :=
  match r with
  | PostSignup _ | PutProfile _ _ => true
  | _ => false
  end.

(** A second owner and more documents for the examples. *)
Definition demo_document_of (documentId userId : string) (uploaded : Z) : obj :=
  new_document documentId userId "lease.pdf"
    (userId +:+ "/1700000000000_lease.pdf.pdf") demo_file uploaded.

Definition demo_store : gmap string obj :=
  <[ document_key "doc-a" := demo_document_of "doc-a" "alice" 1700000003000 ]>
  (<[ document_key "doc-b" := demo_document_of "doc-b" "bob" 1700000004000 ]>
  (<[ document_key "doc-c" := demo_document_of "doc-c" "alice" 1700000005000 ]>
  (<[ profile_key "alice" := demo_profile 2 ]> ∅))).

(** ** Schedules *)

(** The moves of an execution, written down: a request arrives, the
    [i]-th task makes its next call and is answered [a], the [j]-th timer
    fires, a Document record is deleted. *)
Inductive move :=
  | Arrive (r : request)
  | Advance (i : nat) (a : answer)
  | Fire (j : nat)
  | Delete (documentId : string).

Definition play_move (deletions : bool) (s : system) (m : move) : option system :=
  match m with
  | Arrive r =>
      Some {| sys := sys s; pool := pool s ++ [Handler (app_fetch r)];
              issued := issued s |}
  | Advance i a =>
      match pool s !! i with
      | Some t =>
          match task_step a (sys s) t with
          | Some (w', t') =>
              if task_draws t && bool_decide (uuid a ∈ issued s) then None
              else Some {| sys := w';
                           pool := take i (pool s) ++ t' :: drop (S i) (pool s);
                           issued := if task_draws t then uuid a :: issued s
                                     else issued s |}
          | None => None
          end
      | None => None
      end
  | Fire j =>
      match timers (sys s) !! j with
      | Some (c, ms) =>
          Some {| sys := {| store := store (sys s);
                            timers := take j (timers (sys s))
                                      ++ drop (S j) (timers (sys s));
                            writes := writes (sys s) |};
                  pool := pool s ++ [Job (callback c)]; issued := issued s |}
      | None => None
      end
  | Delete documentId =>
      if deletions then
        Some {| sys := {| store := kv.del (document_key documentId) (store (sys s));
                          timers := timers (sys s); writes := writes (sys s) |};
                pool := pool s; issued := issued s |}
      else None
  end.

Fixpoint play (deletions : bool) (s : system) (ms : list move) : option system :=
  match ms with
  | [] => Some s
  | m :: rest =>
      match play_move deletions s m with
      | Some s' => play deletions s' rest
      | None => None
      end
  end.

(** ** The life of an identifier *)

(** Where the document of an identifier stands: the identifier is drawn
    and nothing is written yet; the record is written and [k] turns of the
    runner's loop are over; the loop is over; the analysis is written. *)
Inductive phase :=
  | Fresh
  | Stage (k : nat)
  | Final
  | Done.

(** What a task holds: nothing, or the one identifier it works on. *)
Inductive hold :=
  | Nothing
  | Holds (documentId : string) (ph : phase).

Definition hold_id (h : hold) : option string :=
  match h with
  | Nothing => None
  | Holds documentId _ => Some documentId
  end.

(** The phase after turn [k + 1] of the loop. *)
Definition next_phase (k : nat) : phase :=
  if (S k <? length stages)%nat then Stage (S k) else Final.

(** A Document record carries the time of its upload. *)
Definition stamped (d : obj) : Prop := is_Some (upload_time d).

(** What a read of the store gives under [key] when every Document record
    of the store is stamped. *)
Definition well_read (key : string) (x : option obj) : Prop :=
  forall documentId d, key = document_key documentId -> x = Some d -> stamped d.

(** The discipline every task follows.  [follows h p]: the program [p],
    holding [h], only ever
    - sets Profile records, the Document record of the identifier it
      holds, and, once, its Analysis record;
    - creates the record reading pending/0, moves it one step along
      [stage_path] per turn (or skips the turn when it reads no record),
      and writes the analysis after the last turn; the Document records
      it writes are stamped, those it reads being so;
    - draws an identifier when it holds none, and hands the identifier
      it holds to the timer it sets. *)
Fixpoint follows {A} (h : hold) (p : prog A) : Prop :=
  match p with
  | Ret _ | Throw | Unmodelled => True
  | KvGet key k =>
      forall x,
        well_read key x ->
        follows h (k x)
        \/ (x = None /\ exists documentId j,
              h = Holds documentId (Stage j)
              /\ key = document_key documentId
              /\ follows (Holds documentId (next_phase j)) (k x))
  | KvSet key v k =>
      (is_profile_key key /\ follows h k)
      \/ (exists documentId,
            key = document_key documentId /\ h = Holds documentId Fresh
            /\ reading v = Some ("pending", 0) /\ stamped v
            /\ follows (Holds documentId (Stage 0)) k)
      \/ (exists documentId j entry,
            key = document_key documentId /\ h = Holds documentId (Stage j)
            /\ stage_path !! S j = Some entry /\ reading v = Some entry
            /\ stamped v
            /\ follows (Holds documentId (next_phase j)) k)
      \/ (exists documentId,
            key = analysis_key documentId /\ h = Holds documentId Final
            /\ follows (Holds documentId Done) k)
  | KvGetByPrefix _ k => forall x, follows h (k x)
  | AuthGetUser _ k => forall x, follows h (k x)
  | AuthCreateUser _ _ _ k => forall x, follows h (k x)
  | StorageUpload _ _ k => forall x, follows h (k x)
  | RandomUUID k => h = Nothing /\ forall documentId, follows (Holds documentId Fresh) (k documentId)
  | DateNow k => forall x, follows h (k x)
  | SetTimeout c _ k =>
      (exists documentId userId,
         c = SimulateAnalysis documentId userId
         /\ h = Holds documentId (Stage 0))
      /\ follows Nothing k
  | Delay _ k => follows h k
  end.

Definition task_follows (t : task) (h : hold) : Prop :=
  match t with
  | Handler p => follows h p
  | Job p => follows h p
  end.

Definition closure_id (c : closure) : string :=
  match c with SimulateAnalysis documentId _ => documentId end.

(** A pending timer holds the identifier of its callback. *)
Definition timer_hold (t : closure * Z) : hold := Holds (closure_id t.1) (Stage 0).

(** The Document record of an identifier is there, unless records can be
    deleted. *)
Definition present (deletions : bool) (m : gmap string obj) (documentId : string) : Prop :=
  deletions = true \/ is_Some (m !! document_key documentId).

(** The Document record of an identifier reads complete/100; it can be
    missing only when records can be deleted. *)
Definition final (deletions : bool) (m : gmap string obj) (documentId : string) : Prop :=
  match m !! document_key documentId with
  | Some d => reading d = Some ("complete", 100)
  | None => deletions = true
  end.

(** The Document record of an identifier, when there, reads one of the
    first [k + 1] values of [stage_path]. *)
Definition at_most (k : nat) (m : gmap string obj) (documentId : string) : Prop :=
  forall d, m !! document_key documentId = Some d ->
    exists j entry, (j <= k)%nat /\ stage_path !! j = Some entry
                    /\ reading d = Some entry.

(** What the store shows of an identifier held in a phase. *)
Definition shows (deletions : bool) (m : gmap string obj) (h : hold) : Prop :=
  match h with
  | Nothing => True
  | Holds documentId Fresh =>
      m !! analysis_key documentId = None /\ m !! document_key documentId = None
  | Holds documentId (Stage k) =>
      m !! analysis_key documentId = None
      /\ present deletions m documentId /\ at_most k m documentId
  | Holds documentId Final =>
      m !! analysis_key documentId = None /\ final deletions m documentId
  | Holds documentId Done => final deletions m documentId
  end.

(** Two stores agree on the records of an identifier. *)
Definition same_records (m m' : gmap string obj) (documentId : string) : Prop :=
  m' !! document_key documentId = m !! document_key documentId
  /\ m' !! analysis_key documentId = m !! analysis_key documentId.

(** The store agrees with what is held: no identifier is held twice, and
    every held identifier was issued; the store shows each held identifier
    in its phase; only issued identifiers have records; an Analysis record
    stands next to a finished Document record; every Document record
    reads a value of [stage_path] and is stamped. *)
Definition coherent (deletions : bool) (held : list hold)
    (m : gmap string obj) (iss : list string) : Prop :=
  NoDup (omap hold_id held)
  /\ (forall documentId, documentId ∈ omap hold_id held -> documentId ∈ iss)
  /\ Forall (shows deletions m) held
  /\ (forall documentId,
        is_Some (m !! analysis_key documentId)
        \/ is_Some (m !! document_key documentId) ->
        documentId ∈ iss)
  /\ (forall documentId,
        is_Some (m !! analysis_key documentId) -> final deletions m documentId)
  /\ (forall documentId d,
        m !! document_key documentId = Some d ->
        (exists entry, entry ∈ stage_path /\ reading d = Some entry)
        /\ stamped d).

(** The invariant of the system: every task follows the discipline for
    what it holds, and the store agrees with what the tasks and the
    pending timers hold. *)
Definition invariant (deletions : bool) (s : system) : Prop :=
  exists hs : list hold,
    Forall2 task_follows (pool s) hs
    /\ coherent deletions (hs ++ (timer_hold <$> timers (sys s)))
         (store (sys s)) (issued s).

(** What one call of a task does to what it holds, to the store and to
    the identifiers issued. *)
Inductive moves :
    hold -> gmap string obj -> list string ->
    hold -> gmap string obj -> list string -> Prop :=
  | moves_stay h m iss : moves h m iss h m iss
  | moves_skip documentId j m iss :
      m !! document_key documentId = None ->
      moves (Holds documentId (Stage j)) m iss
            (Holds documentId (next_phase j)) m iss
  | moves_draw documentId m iss :
      documentId ∉ iss ->
      moves Nothing m iss (Holds documentId Fresh) m (documentId :: iss)
  | moves_profile h key v m iss :
      is_profile_key key ->
      moves h m iss h (<[key := v]> m) iss
  | moves_create documentId v m iss :
      reading v = Some ("pending", 0) -> stamped v ->
      moves (Holds documentId Fresh) m iss
            (Holds documentId (Stage 0)) (<[document_key documentId := v]> m) iss
  | moves_stage documentId j entry v m iss :
      stage_path !! S j = Some entry ->
      reading v = Some entry -> stamped v ->
      moves (Holds documentId (Stage j)) m iss
            (Holds documentId (next_phase j))
            (<[document_key documentId := v]> m) iss
  | moves_analysis documentId v m iss :
      moves (Holds documentId Final) m iss
            (Holds documentId Done) (<[analysis_key documentId := v]> m) iss.

(** Progress does not go down from one store to the next. *)
Definition progress_kept (m m' : gmap string obj) : Prop :=
  forall documentId d d',
    m !! document_key documentId = Some d ->
    m' !! document_key documentId = Some d' ->
    exists e e', reading d = Some e /\ reading d' = Some e' /\ e.2 <= e'.2.

(** ** Schedules of the examples *)

Definition demo_upload : request :=
  PostUpload (Some "Bearer token")
    (Some {| form_file := Some demo_file; form_fileName := Some "lease.pdf" |}).

Definition demo_signup : request :=
  PostSignup (Some (VObj [ ("email", VStr "alice@example.org");
                           ("password", VStr "secret");
                           ("name", VStr "Alice") ])).

(** The [i]-th task makes [n] calls, each answered by [demo_env k]. *)
Definition advance (i k n : nat) : list move := replicate n (Advance i (demo_env k)).

(** One upload, then its runner up to the last status write. *)
Definition schedule_to_complete : list move :=
  Arrive demo_upload :: advance 0 7 7 ++ Fire 0 :: advance 1 7 12.

(** The same, and the runner to its end. *)
Definition schedule_to_end : list move :=
  schedule_to_complete ++ advance 1 7 3.

(** A registration and two uploads of the same user, up to the moment
    both runners are started. *)
Definition schedule_overlap_start : list move :=
  Arrive demo_signup :: advance 0 1 3
  ++ Arrive demo_upload :: advance 1 7 7
  ++ Arrive demo_upload :: advance 2 8 7
  ++ [Fire 0; Fire 0].

(** Then the first runner runs to its end, and the second after it. *)
Definition schedule_overlap_rest : list move :=
  advance 3 7 16 ++ advance 4 8 16.


Definition state_end : system :=
  Eval vm_compute in default boot (play false boot schedule_to_end).

Definition state_overlap_start : system :=
  Eval vm_compute in default boot (play false boot schedule_overlap_start).

Definition state_overlap_end : system :=
  Eval vm_compute in
    default boot (play false state_overlap_start schedule_overlap_rest).


(** ** The routes outside the analysis workflow *)

(** What [createSignedUrl] resolves to: [data] ([None] is [null]) with its
    [signedUrl] member ([None] is [undefined]), and whether [error] is
    set. *)
Module SignedUrl.
Record t := { data : option (option value); error : bool }.
End SignedUrl.

(** Get document file URL.  [createSignedUrl] is the object storage: what
    it answers for a path and an expiry in seconds. *)
Definition get_file (createSignedUrl : option value -> Z -> SignedUrl.t)
    (userId documentId : string) : prog response :=
  try_catch
    (document <- await KvGet (document_key documentId) ;;
     match document with
     | None => Ret (error_json "Document not found" 404)
     | Some d =>
         if negb (owned_by userId d) then
           Ret (error_json "Document not found" 404)
         else
           let answer := createSignedUrl (Js.get "file_path" d) 3600 in
           match SignedUrl.data answer with
           | None => Throw
           | Some signedUrl =>
               if SignedUrl.error answer then
                 Ret (error_json "Failed to generate file URL" 500)
               else
                 Ret (json (member "url" signedUrl) 200)
           end
     end)
    (Ret (error_json "Failed to get file URL" 500)).

Definition responses : list string :=
  [ "Based on the clause you've highlighted, this appears to be a standard liability limitation provision. However, I notice it may not adequately protect against gross negligence.";
    "This termination clause allows either party to terminate with 30 days notice. You might want to consider adding specific termination triggers for breach of contract.";
    "The confidentiality provision looks comprehensive, but consider adding a clause about return of confidential information upon contract termination.";
    "This indemnification clause is quite broad. You may want to negotiate for mutual indemnification to balance the risk allocation.";
    "The intellectual property clause needs clarification on who owns derivative works created during the collaboration." ].

Definition suggestions : list string :=
  [ "Review similar clauses in other documents";
    "Compare against industry standards";
    "Flag for legal review" ].

(** [arr[i]] for a whole number [i]. *)
Definition at_index {A} (arr : list A) (i : Z) : option A :=
  if (0 <=? i)%Z then arr !! Z.to_nat i else None.

(** AI Legal Assistant Chat.  [body] is the parsed request body, [None]
    when [c.req.json()] rejects; [random] is what [Math.random()] returns. *)
Definition chat (body : option value) (random : Q) : prog response :=
  try_catch
    match body with
    | None | Some VNull => Throw
    | Some _ =>
        let response :=
          at_index responses
            (Qfloor (random * inject_Z (Z.of_nat (length responses)))%Q) in
        Ret (json (member "response" (VStr <$> response)
                   ++ [("suggestions", VArr (VStr <$> suggestions))]) 200)
    end
    (Ret (error_json "Failed to process chat message" 500)).

(** The two routes behind the middleware. *)
Definition file_route (createSignedUrl : option value -> Z -> SignedUrl.t)
    (authorization : option string) (documentId : string) : prog response :=
  requireAuth authorization
    (fun userId => get_file createSignedUrl userId documentId).

Definition chat_route (authorization : option string) (body : option value)
    (random : Q) : prog response :=
  requireAuth authorization (fun _ => chat body random).

(** ** Start-up *)

Module Bucket.
Record options := { public : bool; allowedMimeTypes : list string }.
End Bucket.

Definition bucketName : string := "make-0cfdab42-legal-documents".

(** Create storage bucket on startup.  [buckets] is the [data] of
    [listBuckets], the names of the buckets or [None]; the result is the
    [createBucket] call made, if any. *)
Definition initializeStorage (buckets : option (list string))
    : option (string * Bucket.options) :=
  let bucketExists := existsb (fun name => String.eqb name bucketName) <$> buckets in
  if negb (default false bucketExists) then
    Some (bucketName,
          {| Bucket.public := false;
             Bucket.allowedMimeTypes :=
               [ "application/pdf";
                 "application/vnd.openxmlformats-officedocument.wordprocessingml.document";
                 "application/msword" ] |})
  else None.

(** ** The upload page *)

(** [response.ok]. *)
Definition ok (r : response) : bool :=
  (200 <=? status r)%Z && (status r <=? 299)%Z.

Module DocumentUpload.

Record UploadFile := {
  id : string;
  file : File.t;
  progress : Z;
  status : string;
  error : option value
}.

Definition allowedTypes : list string :=
  [ "application/pdf";
    "application/vnd.openxmlformats-officedocument.wordprocessingml.document";
    "application/msword" ].

(** The loop of [handleFiles]: the files it queues, the [k]-th identifier
    drawn being [randomUUID k]. *)
Fixpoint newFiles (randomUUID : nat -> string) (k : nat) (fileList : list File.t)
    : list UploadFile :=
  match fileList with
  | [] => []
  | file :: rest =>
      if negb (includes allowedTypes (File.type file)) then
        newFiles randomUUID k rest
      else if (50 * 1024 * 1024 <? File.size file)%Z then
        newFiles randomUUID k rest
      else
        {| id := randomUUID k; file := file; progress := 0;
           status := "pending"; error := None |}
        :: newFiles randomUUID (S k) rest
  end.

Definition handleFiles (randomUUID : nat -> string) (fileList : list File.t)
    (prevFiles : list UploadFile) : list UploadFile :=
  prevFiles ++ newFiles randomUUID 0 fileList.


(** The form [uploadFile] posts. *)
Definition formData (uploadFile : UploadFile) : FormData :=
  {| form_file := Some (file uploadFile);
     form_fileName := Some (File.name (file uploadFile)) |}.

(** The three updates of [uploadFile] to the list: at the start, at each
    turn of the progress timer, and on the response. *)
Definition started (uploadFile : UploadFile) (prevFiles : list UploadFile)
    : list UploadFile :=
  (fun entry =>
     if String.eqb (id entry) (id uploadFile) then
       {| id := id entry; file := file entry; progress := 10;
          status := "uploading"; error := error entry |}
     else entry) <$> prevFiles.

Definition tick (uploadFile : UploadFile) (prevFiles : list UploadFile)
    : list UploadFile :=
  (fun entry =>
     if String.eqb (id entry) (id uploadFile) && (progress entry <? 90)%Z then
       {| id := id entry; file := file entry;
          progress := progress entry + 10;
          status := status entry; error := error entry |}
     else entry) <$> prevFiles.

Definition finished (uploadFile : UploadFile) (r : response)
    (prevFiles : list UploadFile) : list UploadFile :=
  (fun entry =>
     if String.eqb (id entry) (id uploadFile) then
       if ok r then
         {| id := id entry; file := file entry; progress := 100;
            status := "complete"; error := error entry |}
       else
         {| id := id entry; file := file entry;
            progress := progress entry; status := "error";
            error := Some (Js.or_else (Js.get "error" (body r))
                             (VStr "Upload failed")) |}
     else entry) <$> prevFiles.

End DocumentUpload.

(** ** The dashboard *)

Module Dashboard.

Definition getStatusColor (status : string) : string :=
  if String.eqb status "complete" then "bg-green-100 text-green-800"
  else if String.eqb status "pending" then "bg-yellow-100 text-yellow-800"
  else if String.eqb status "extracting" || String.eqb status "classifying"
          || String.eqb status "analyzing" then "bg-blue-100 text-blue-800"
  else if String.eqb status "error" then "bg-red-100 text-red-800"
  else "bg-gray-100 text-gray-800".

Definition completedDocuments (documents : list obj) : list obj :=
  List.filter (fun doc => Js.is_string (Js.get "analysis_status" doc) "complete")
    documents.

Definition processingDocuments (documents : list obj) : list obj :=
  List.filter
    (fun doc =>
       existsb (Js.is_string (Js.get "analysis_status" doc))
         ["pending"; "extracting"; "classifying"; "analyzing"])
    documents.

End Dashboard.

(** ** The profile page *)

(** The body [handleSave] sends: [JSON.stringify({ name, email })]. *)
Definition handleSave_body (name email : string) : value :=
  VObj [("name", VStr name); ("email", VStr email)].

(** ** More auxiliary definitions *)

(** The storage uploads a program makes when it runs as in [run]: the
    path and the file of each [StorageUpload], in order. *)
Fixpoint uploads {A} (e : nat -> answer) (n : nat) (w : world) (p : prog A)
    : list (string * File.t) :=
  match p with
  | Ret _ | Throw | Unmodelled => []
  | KvGet key k => uploads e (S n) w (k (kv.get key (store w)))
  | KvSet key v k =>
      uploads e (S n)
        {| store := kv.set key v (store w); timers := timers w;
           writes := writes w ++ [(key, v)] |} k
  | KvGetByPrefix pre k => uploads e (S n) w (k (kv.getByPrefix pre (store w)))
  | AuthGetUser _ k => uploads e (S n) w (k (user (e n)))
  | AuthCreateUser _ _ _ k => uploads e (S n) w (k (created (e n)))
  | StorageUpload path file k =>
      (path, file) :: uploads e (S n) w (k (uploadError (e n)))
  | RandomUUID k => uploads e (S n) w (k (uuid (e n)))
  | DateNow k => uploads e (S n) w (k (now (e n)))
  | SetTimeout c ms k =>
      uploads e (S n)
        {| store := store w; timers := timers w ++ [(c, ms)];
           writes := writes w |} k
  | Delay _ k => uploads e (S n) w k
  end.

(** The characters of a string. *)
Fixpoint letters (s : string) : list ascii :=
  match s with
  | EmptyString => []
  | String c r => c :: letters r
  end.

(** The Authorization header of a request to a route behind the
    middleware. *)
Definition authorization_of (r : request) : option (option string) :=
  match r with
  | PostSignup _ => None
  | GetProfile a | PutProfile a _ | PostUpload a _ | GetDocuments a
  | GetAnalysis a _ => Some a
  end.

(** The record a registration writes. *)
Definition new_profile (id : string) (email name : option value) (t : Z) : obj :=
  [("id", VStr id)] ++ member "email" email ++ member "name" name
  ++ [("created_at", VTime t); ("documents_analyzed", VInt 0);
      ("subscription_tier", VStr "free")].

(** The path the upload handler stores a file under. *)
Definition unique_file_name (userId : string) (stamp : Z) (fileName : string)
    (file : File.t) : string :=
  userId +:+ "/" +:+ pretty stamp +:+ "_" +:+ Str.sanitize fileName +:+ "."
  +:+ Str.pop (Str.split_on "." (File.name file)).

(** The world after the upload handler has stored a record and set the
    timer of its runner. *)
Definition with_document (documentId userId : string) (d : obj) (w : world)
    : world :=
  {| store := <[document_key documentId := d]> (store w);
     timers := timers w ++ [(SimulateAnalysis documentId userId, 1000)];
     writes := writes w ++ [(document_key documentId, d)] |}.

(** The record after the stages [l] have written over [d]. *)
Definition staged_through (l : list stage_info) (d : obj) : obj :=
  foldl (fun d s => staged s d) d l.

(** * Properties *)

(** ** Strings, dates and objects *)

Example split_ext : Str.pop (Str.split_on "." "lease.v2.pdf") = "pdf".
Proof. reflexivity. Qed.

Example split_no_dot : Str.split_on "." "contract" = ["contract"].
Proof. reflexivity. Qed.

Example sanitize_name : Str.sanitize "my lease (1).pdf" = "my_lease__1_.pdf".
Proof. reflexivity. Qed.

Example iso_epoch : Date.toISOString 0 = "1970-01-01T00:00:00.000Z".
Proof. vm_compute. reflexivity. Qed.

Example iso_2023 : Date.toISOString 1700000000000 = "2023-11-14T22:13:20.000Z".
Proof. vm_compute. reflexivity. Qed.

Example iso_leap : Date.toISOString 1709210096789 = "2024-02-29T12:34:56.789Z".
Proof. vm_compute. reflexivity. Qed.

Example spread_overwrites :
  Js.spread [("a", VInt 1); ("b", VInt 2)] (Js.own_props (VObj [("a", VInt 9); ("c", VNull)]))
  = [("a", VInt 9); ("b", VInt 2); ("c", VNull)].
Proof. reflexivity. Qed.

Example spread_string :
  Js.spread [] (Js.own_props (VStr "ab")) = [("0", VStr "a"); ("1", VStr "b")].
Proof. vm_compute. reflexivity. Qed.


(** ** Objects and keys *)

Section objects.
Implicit Types (k : string) (v : value) (o : obj).

Lemma get_set_eq k v o : Js.get k (Js.set k v o) = Some v.
Proof.
  induction o as [|[k' v'] r IH]; simpl.
  - by rewrite String.eqb_refl.
  - destruct (String.eqb k' k) eqn:E; simpl.
    + by rewrite String.eqb_refl.
    + by rewrite E.
Qed.

Lemma get_set_ne k k' v o : k <> k' -> Js.get k' (Js.set k v o) = Js.get k' o.
Proof.
  intros Hne. induction o as [|[k0 v0] r IH]; simpl.
  - apply String.eqb_neq in Hne. by rewrite Hne.
  - destruct (String.eqb k0 k) eqn:E; simpl.
    + apply String.eqb_eq in E. subst k0.
      apply String.eqb_neq in Hne. by rewrite Hne.
    + by rewrite IH.
Qed.

Lemma get_spread_skip k o props :
  Js.get k props = None -> Js.get k (Js.spread o props) = Js.get k o.
Proof.
  unfold Js.spread. revert o.
  induction props as [|[k' v'] r IH]; intros o H; simpl in *; [done|].
  destruct (String.eqb k' k) eqn:E; [done|].
  rewrite IH by done. apply get_set_ne. by apply String.eqb_neq.
Qed.

Lemma add_one (c : Z) : Js.add (VInt c) (VInt 1) = Some (VInt (c + 1)).
Proof.
  unfold Js.add, VInt. simpl. do 2 f_equal.
  unfold Qplus, inject_Z. simpl. rewrite !Z.mul_1_r.
  apply Qred_identity. simpl. apply Z.gcd_1_r.
Qed.

End objects.

Section keys.
Implicit Types (u i j : string).

Lemma document_key_inj i j : document_key i = document_key j -> i = j.
Proof. unfold document_key. cbn. intros H. by simplify_eq. Qed.

Lemma analysis_key_inj i j : analysis_key i = analysis_key j -> i = j.
Proof. unfold analysis_key. cbn. intros H. by simplify_eq. Qed.

Lemma profile_key_inj i j : profile_key i = profile_key j -> i = j.
Proof. unfold profile_key. cbn. intros H. by simplify_eq. Qed.

Lemma profile_not_document u i : profile_key u <> document_key i.
Proof. unfold profile_key, document_key. simpl. discriminate. Qed.

Lemma analysis_not_document i j : analysis_key i <> document_key j.
Proof. unfold analysis_key, document_key. simpl. discriminate. Qed.

Lemma profile_not_analysis u i : profile_key u <> analysis_key i.
Proof. unfold profile_key, analysis_key. simpl. discriminate. Qed.
End keys.

Create HintDb keys.

#[local] Hint Resolve profile_not_document analysis_not_document
  profile_not_analysis : keys.

(** ** Execution *)

(** [run] makes the calls of [exec_head] one after the other. *)
Lemma run_exec_head {A} e n w (p p' : prog A) w' :
  exec_head (e n) w p = Some (w', p') -> run e n w p = run e (S n) w' p'.
Proof. destruct p; cbn; try done; by intros [= <- <-]. Qed.

Lemma run_ended {A} e n w (p : prog A) a :
  exec_head a w p = None -> (run e n w p).1 = w.
Proof. by destruct p. Qed.

(** ** The runner on its own *)

Lemma status_staged s d : status_of (staged s d) = Some (VStr (stage s)).
Proof.
  unfold status_of, staged. rewrite get_set_ne by done. apply get_set_eq.
Qed.

Lemma progress_staged s d : progress_of (staged s d) = Some (VInt (progress s)).
Proof. unfold progress_of, staged. apply get_set_eq. Qed.

Lemma run_stage_found {e n w} documentId s next d :
  store w !! document_key documentId = Some d ->
  run e n w (run_stage documentId s next)
  = run e (3 + n) (after_stage documentId s d w) next.
Proof. intros H. simpl. unfold kv.get. by rewrite H. Qed.

Lemma run_stage_missing {e n w} documentId s next :
  store w !! document_key documentId = None ->
  run e n w (run_stage documentId s next) = run e (2 + n) w next.
Proof. intros H. simpl. unfold kv.get. by rewrite H. Qed.

(** The loop leaves every key but the document's as it was, and ends in
    the rest of the runner. *)
Lemma run_stages_frame documentId l : forall e n w next,
  exists n' w',
    run e n w (run_stages documentId l next) = run e n' w' next
    /\ (forall key, key <> document_key documentId ->
          store w' !! key = store w !! key)
    /\ (forall key, key <> document_key documentId ->
          writes_to key w' = writes_to key w)
    /\ timers w' = timers w.
Proof.
  induction l as [|s l IH]; intros e n w next.
  - exists n, w. done.
  - change (run_stages documentId (s :: l) next)
      with (run_stage documentId s (run_stages documentId l next)).
    destruct (store w !! document_key documentId) as [d|] eqn:Hd.
    + rewrite (run_stage_found _ _ _ d Hd).
      destruct (IH e (3 + n)%nat (after_stage documentId s d w) next)
        as (n' & w' & Hrun & Hst & Hwr & Htm).
      exists n', w'. split; [done|]. split; [|split].
      * intros key Hk. rewrite Hst by done. simpl. by rewrite lookup_insert_ne.
      * intros key Hk. rewrite Hwr by done. unfold writes_to.
        cbn [writes after_stage]. rewrite List.filter_app.
        cbn [List.filter fst].
        destruct (String.eqb (document_key documentId) key) eqn:E.
        { apply String.eqb_eq in E. congruence. }
        by rewrite app_nil_r.
      * by rewrite Htm.
    + rewrite (run_stage_missing _ _ _ Hd). apply IH.
Qed.

Lemma run_finish_analysis e n w documentId userId :
  run e n w (finish_analysis documentId userId)
  = let w1 := with_analysis documentId (now (e n)) w in
    match store w !! profile_key userId with
    | None => (w1, Returned tt)
    | Some p =>
        match Js.add (Js.or_else (Js.get "documents_analyzed" p) (VInt 0)) (VInt 1) with
        | Some c => (with_profile userId (Js.set "documents_analyzed" c p) w1, Returned tt)
        | None => (w1, OutOfModel)
        end
    end.
Proof.
  cbn [finish_analysis run]. unfold kv.get, kv.set. cbn [store].
  rewrite lookup_insert_ne by auto with keys.
  destruct (store w !! profile_key userId) as [p|]; [|done].
  by destruct (Js.add _ _).
Qed.

Lemma writes_to_snoc_eq key v w st tm :
  writes_to key {| store := st; timers := tm; writes := writes w ++ [(key, v)] |}
  = writes_to key w ++ [v].
Proof.
  unfold writes_to. cbn [writes]. rewrite List.filter_app. cbn [List.filter fst].
  rewrite String.eqb_refl. by rewrite fmap_app.
Qed.

Lemma writes_to_snoc_ne key key' v w st tm :
  key' <> key ->
  writes_to key {| store := st; timers := tm; writes := writes w ++ [(key', v)] |}
  = writes_to key w.
Proof.
  intros Hne. unfold writes_to. cbn [writes]. rewrite List.filter_app.
  cbn [List.filter fst]. apply String.eqb_neq in Hne. rewrite Hne.
  by rewrite app_nil_r.
Qed.

(** What the end of the runner leaves of the store and of the history of
    a document's record. *)
Lemma finish_analysis_frame e n w documentId userId :
  let w' := (run e n w (finish_analysis documentId userId)).1 in
  store w' !! analysis_key documentId
    = Some (mock_analysis documentId (now (e n)))
  /\ (forall i, store w' !! document_key i = store w !! document_key i)
  /\ (forall i, writes_to (document_key i) w' = writes_to (document_key i) w)
  /\ timers w' = timers w.
Proof.
  rewrite run_finish_analysis. cbn zeta.
  destruct (store w !! profile_key userId) as [p|]; [destruct (Js.add _ _)|];
    cbn [fst].
  all: repeat split; intros;
    unfold with_profile; rewrite ?writes_to_snoc_ne by auto with keys;
    unfold with_analysis; rewrite ?writes_to_snoc_ne by auto with keys;
    cbn [store timers];
    rewrite ?(lookup_insert_ne (M:=gmap string)) by auto with keys;
    try done; try apply lookup_insert_eq.
Qed.

Lemma reading_staged s d : reading (staged s d) = Some (stage s, progress s).
Proof. unfold reading. by rewrite status_staged, progress_staged. Qed.

(** C1.  A runner started on a record that reads pending/0 writes the
    record exactly four times, and the values the record goes through are
    pending/0, extracting/25, classifying/50, analyzing/75, complete/100
    in that order.  Progress never decreases along them and is 100 only
    with status complete, which is what the record reads at the end. *)
Theorem stage_sequence e n m documentId userId d :
  m !! document_key documentId = Some d ->
  reading d = Some ("pending", 0) ->
  let w' := (run e n (at_rest m) (simulateAnalysis documentId userId)).1 in
  let seen := d :: writes_to (document_key documentId) w' in
  reading <$> seen = Some <$> stage_path
  /\ StronglySorted (fun a b => a.2 <= b.2) stage_path
  /\ (forall s, (s, 100) ∈ stage_path -> s = "complete")
  /\ (reading <$> store w' !! document_key documentId) = Some (Some ("complete", 100)).
Proof.
  intros Hd Hr w' seen. subst seen w'.
  unfold simulateAnalysis, run_stages, stages. cbn [foldr].
  rewrite (run_stage_found _ _ _ d) by done.
  rewrite (run_stage_found _ _ _ (staged _ d)) by apply lookup_insert_eq.
  rewrite (run_stage_found _ _ _ (staged _ (staged _ d))) by apply lookup_insert_eq.
  rewrite (run_stage_found _ _ _ (staged _ (staged _ (staged _ d))))
    by apply lookup_insert_eq.
  match goal with |- context [run ?e ?n ?w (finish_analysis ?i ?u)] =>
    destruct (finish_analysis_frame e n w i u) as (_ & Hst & Hwr & _)
  end.
  rewrite Hst, Hwr. clear Hst Hwr.
  split; [|split; [|split]].
  - unfold after_stage at 1. rewrite writes_to_snoc_eq.
    unfold after_stage at 1. rewrite writes_to_snoc_eq.
    unfold after_stage at 1. rewrite writes_to_snoc_eq.
    unfold after_stage at 1. rewrite writes_to_snoc_eq.
    cbn [fmap list_fmap app writes_to at_rest writes List.filter].
    by rewrite Hr, !reading_staged.
  - unfold stage_path. repeat constructor; cbn; lia.
  - intros s Hs. unfold stage_path in Hs.
    repeat (apply elem_of_cons in Hs as [Hs|Hs]; [by simplify_eq|]).
    by apply elem_of_nil in Hs.
  - cbn [after_stage store]. rewrite lookup_insert_eq.
    cbn [fmap option_fmap option_map]. by rewrite reading_staged.
Qed.

Lemma stage_sequence_witness :
  let m : gmap string obj := {[ document_key "doc-2" := demo_document ]} in
  let w' := (run demo_env 0 (at_rest m) (simulateAnalysis "doc-2" "alice")).1 in
  m !! document_key "doc-2" = Some demo_document
  /\ reading demo_document = Some ("pending", 0)
  /\ reading <$> (demo_document :: writes_to (document_key "doc-2") w')
     = Some <$> stage_path.
Proof.
  split; [apply lookup_singleton_eq|]. split; [reflexivity|].
  apply (stage_sequence demo_env 0 _ "doc-2" "alice" demo_document).
  - apply lookup_singleton_eq.
  - reflexivity.
Defined.

(** C6.  Whatever the store holds when the runner starts, and so whatever
    was uploaded, the Analysis record the runner stores under the
    document's identifier is the mock result: three clause findings,
    overall risk score 4.3, compliance score 78, and the missing clauses
    Force Majeure, Dispute Resolution and Governing Law.  Only the
    document identifier and the time of analysis vary. *)
Theorem analysis_is_fixed e n w documentId userId :
  let w' := (run e n w (simulateAnalysis documentId userId)).1 in
  exists t a clauses missing,
    store w' !! analysis_key documentId = Some a
    /\ a = mock_analysis documentId t
    /\ Js.get "clauses" a = Some (VArr clauses)
    /\ length clauses = 3%nat
    /\ Js.get "overall_risk_score" a = Some (VNum (43 # 10))
    /\ Js.get "compliance_score" a = Some (VInt 78)
    /\ Js.get "missing_clauses" a = Some (VArr missing)
    /\ VStr "Force Majeure" ∈ missing
    /\ VStr "Dispute Resolution" ∈ missing
    /\ VStr "Governing Law" ∈ missing.
Proof.
  intros w'. subst w'. unfold simulateAnalysis.
  destruct (run_stages_frame documentId stages e n w
              (finish_analysis documentId userId))
    as (n' & w1 & -> & _).
  destruct (finish_analysis_frame e n' w1 documentId userId) as (Ha & _).
  eexists _, _, _, _. split; [exact Ha|]. split; [reflexivity|].
  cbn. repeat split; try reflexivity; set_solver.
Qed.



(** ** The upload handler *)

Lemma includes_elem_of l t : includes l t = true <-> t ∈ l.
Proof.
  unfold includes. rewrite existsb_exists. split.
  - intros (x & Hin & Heq). apply String.eqb_eq in Heq. subst x.
    by apply list_elem_of_In.
  - intros Hin. exists t. split; [by apply list_elem_of_In|apply String.eqb_refl].
Qed.

Lemma includes_not_elem_of l t : includes l t = false <-> t ∉ l.
Proof.
  rewrite <- includes_elem_of. by destruct (includes l t).
Qed.

Lemma display_name_file form file :
  form_file form = Some file -> exists fileName, display_name form = Some fileName.
Proof.
  intros H. unfold display_name. rewrite H.
  destruct (form_fileName form) as [s|]; [destruct (String.eqb s "")|]; eauto.
Qed.

(** C9.  A valid upload (file present, allowed type, storage succeeds)
    answers 200 with a Document that reads pending/0; the same record is
    the one stored under the new identifier.  When the handler returns,
    the only write it has made is that record and the runner is a timer
    that has not fired: no stage has run.  The handler's calls are, from
    call [n] on: the clock, the storage upload, the identifier, the clock,
    the store, the timer. *)
Theorem upload_creates_pending e n w userId form file :
  form_file form = Some file ->
  File.type file ∈ allowedTypes ->
  uploadError (e (S n)) = false ->
  let documentId := uuid (e (2 + n)%nat) in
  exists document,
    run e n w (upload_document userId (Some form))
    = ({| store := <[document_key documentId := document]> (store w);
          timers := timers w ++ [(SimulateAnalysis documentId userId, 1000)];
          writes := writes w ++ [(document_key documentId, document)] |},
       Returned (json [("document", VObj document)] 200))
    /\ reading document = Some ("pending", 0)
    /\ Js.get "id" document = Some (VStr documentId)
    /\ Js.get "user_id" document = Some (VStr userId).
Proof.
  intros Hfile Htype Hup documentId.
  destruct (display_name_file form file Hfile) as [fileName Hname].
  apply includes_elem_of in Htype.
  unfold upload_document. rewrite Hname, Hfile, Htype.
  cbn [negb try_catch run]. rewrite Hup. cbn [try_catch run].
  eexists. split; [reflexivity|]. by repeat split.
Qed.

Lemma upload_creates_pending_witness :
  let form := {| form_file := Some demo_file; form_fileName := Some "lease.pdf" |} in
  form_file form = Some demo_file
  /\ File.type demo_file ∈ allowedTypes
  /\ uploadError (demo_env 1) = false
  /\ exists document,
      run demo_env 0 (at_rest ∅) (upload_document "alice" (Some form))
      = ({| store := <[document_key "doc-2" := document]> ∅;
            timers := [(SimulateAnalysis "doc-2" "alice", 1000)];
            writes := [(document_key "doc-2", document)] |},
         Returned (json [("document", VObj document)] 200))
      /\ reading document = Some ("pending", 0)
      /\ Js.get "id" document = Some (VStr "doc-2")
      /\ Js.get "user_id" document = Some (VStr "alice").
Proof.
  intros form.
  assert (Ht : File.type demo_file ∈ allowedTypes) by (apply includes_elem_of; reflexivity).
  split; [reflexivity|]. split; [exact Ht|]. split; [reflexivity|].
  exact (upload_creates_pending demo_env 0 (at_rest ∅) "alice" form demo_file
           eq_refl Ht eq_refl).
Defined.

(** C5.  An upload whose file has a type outside the three allowed ones
    is answered 400 and leaves the world as it was: no record is written
    and no runner is scheduled. *)
Theorem upload_rejects_type e n w userId form file :
  form_file form = Some file ->
  File.type file ∉ allowedTypes ->
  run e n w (upload_document userId (Some form))
  = (w, Returned (error_json
       "Invalid file type. Please upload PDF or Word documents only." 400)).
Proof.
  intros Hfile Htype.
  destruct (display_name_file form file Hfile) as [fileName Hname].
  apply includes_not_elem_of in Htype.
  unfold upload_document. by rewrite Hname, Hfile, Htype.
Qed.

Lemma upload_rejects_type_witness :
  let file := {| File.name := "notes.txt"; File.type := "text/plain"; File.size := 12 |} in
  let form := {| form_file := Some file; form_fileName := Some "notes.txt" |} in
  form_file form = Some file
  /\ (File.type file ∉ allowedTypes)
  /\ run demo_env 0 (at_rest ∅) (upload_document "alice" (Some form))
     = (at_rest ∅, Returned (error_json
          "Invalid file type. Please upload PDF or Word documents only." 400)).
Proof.
  intros file form.
  assert (Ht : File.type file ∉ allowedTypes) by (apply includes_not_elem_of; reflexivity).
  split; [reflexivity|]. split; [exact Ht|].
  exact (upload_rejects_type demo_env 0 (at_rest ∅) "alice" form file eq_refl Ht).
Defined.

(** C10.  When the checks pass and the storage upload fails, the answer
    is 500 and the world is as it was: no record is written and no runner
    is scheduled. *)
Theorem upload_storage_failure e n w userId form file :
  form_file form = Some file ->
  File.type file ∈ allowedTypes ->
  uploadError (e (S n)) = true ->
  run e n w (upload_document userId (Some form))
  = (w, Returned (error_json "Failed to upload document" 500)).
Proof.
  intros Hfile Htype Hup.
  destruct (display_name_file form file Hfile) as [fileName Hname].
  apply includes_elem_of in Htype.
  unfold upload_document. rewrite Hname, Hfile, Htype.
  cbn [negb try_catch run]. by rewrite Hup.
Qed.

(** A platform whose storage refuses every upload. *)
Lemma upload_storage_failure_witness :
  let e := fun n => {| now := now (demo_env n); uuid := uuid (demo_env n);
                       uploadError := true; user := user (demo_env n);
                       created := created (demo_env n) |} in
  let form := {| form_file := Some demo_file; form_fileName := None |} in
  form_file form = Some demo_file
  /\ File.type demo_file ∈ allowedTypes
  /\ uploadError (e 1%nat) = true
  /\ run e 0 (at_rest ∅) (upload_document "alice" (Some form))
     = (at_rest ∅, Returned (error_json "Failed to upload document" 500)).
Proof.
  intros e form.
  assert (Ht : File.type demo_file ∈ allowedTypes) by (apply includes_elem_of; reflexivity).
  split; [reflexivity|]. split; [exact Ht|]. split; [reflexivity|].
  exact (upload_storage_failure e 0 (at_rest ∅) "alice" form demo_file eq_refl Ht eq_refl).
Defined.

(** Without a file the handler never writes or schedules anything; its
    answer is 400 when the form carries a display name. *)
Lemma upload_without_file e n w userId form :
  form_file form = None ->
  run e n w (upload_document userId (Some form))
  = (w, Returned
       match display_name form with
       | Some _ => error_json "No file provided" 400
       | None => error_json "Failed to process document upload" 500
       end).
Proof.
  intros Hfile. unfold upload_document.
  destruct (display_name form); [|done]. by rewrite Hfile.
Qed.

(** C4, at the failing input.  A form with neither a file nor a display
    name is answered 500, not 400: the display name falls back to the name
    of the missing file before the presence of the file is checked. *)
Theorem upload_without_file_or_name e n w userId :
  run e n w (upload_document userId
               (Some {| form_file := None; form_fileName := None |}))
  = (w, Returned (error_json "Failed to process document upload" 500)).
Proof. reflexivity. Qed.

(** ** Profiles *)

Lemma never_sets_try_catch {A} P (p h : prog A) :
  never_sets P p -> never_sets P h -> never_sets P (try_catch p h).
Proof.
  intros Hp Hh. induction p; cbn in *; try done; try (intros x; by auto).
  all: try (destruct Hp; split; by auto).
  all: by auto.
Qed.

Lemma never_sets_run {A} P (p : prog A) :
  never_sets P p ->
  forall e n w key, P key -> store (run e n w p).1 !! key = store w !! key.
Proof.
  induction p as [| | |key k IH|key v k IH|pre k IH|tok k IH|em pw nm k IH
                  |path f k IH|k IH|k IH|c ms k IH|ms k IH];
    intros Hp e n w key' HP; cbn in *; try done; try (by apply IH).
  - destruct Hp as [Hk Hp]. rewrite IH by done. cbn. unfold kv.set.
    apply lookup_insert_ne. by intros ->.
  - by rewrite IH.
Qed.

Lemma never_sets_requireAuth P a next :
  (forall userId, never_sets P (next userId)) -> never_sets P (requireAuth a next).
Proof.
  intros H. unfold requireAuth. destruct (access_token a); [|done].
  intros [userId|]; cbn; auto.
Qed.

Lemma document_key_not_profile i : ~ is_profile_key (document_key i).
Proof. intros [u Hu]. by eapply profile_not_document. Qed.

(** The requests other than registration and profile update set no
    Profile record. *)
Lemma app_fetch_never_sets_profile r :
  writes_profile r = false -> never_sets is_profile_key (app_fetch r).
Proof.
  destruct r as [body|a|a body|a form|a|a documentId]; try done; intros _;
    apply never_sets_requireAuth; intros userId.
  - apply never_sets_try_catch; [|done]. intros [p|]; done.
  - apply never_sets_try_catch; [|done].
    destruct form as [form|]; [|done].
    destruct (display_name form); [|done].
    destruct (form_file form) as [file|]; [|done].
    destruct (negb _); [done|].
    intros stamp [|]; [done|]. intros documentId t.
    split; [apply document_key_not_profile|done].
  - apply never_sets_try_catch; [|done]. by intros docs.
  - apply never_sets_try_catch; [|done].
    intros [d|]; [|done]. destruct (negb _); [done|]. by intros x.
Qed.

(** C3, the case that fails.  A profile update whose body carries a
    [documents_analyzed] member overwrites the counter. *)
Lemma put_profile_overwrites_counter :
  let m : gmap string obj := {[ profile_key "alice" := demo_profile 4 ]} in
  let body := VObj [("documents_analyzed", VInt 999)] in
  let w' := (run demo_env 0 (at_rest m) (put_profile "alice" (Some body))).1 in
  (m !! profile_key "alice") ≫= Js.get "documents_analyzed" = Some (VInt 4)
  /\ (store w' !! profile_key "alice") ≫= Js.get "documents_analyzed"
     = Some (VInt 999).
Proof.
  cbn zeta. split.
  - by rewrite lookup_singleton_eq.
  - cbn [put_profile try_catch run]. unfold kv.get. cbn [at_rest store].
    rewrite lookup_singleton_eq. cbn [try_catch run fst store]. unfold kv.set.
    by rewrite lookup_insert_eq.
Qed.

(** C3, amended.  A profile update whose body has no [documents_analyzed]
    member stores a profile with the counter it had before; and the
    requests other than registration and profile update leave every
    Profile record as it was. *)
Theorem counter_kept_by_requests e n w userId :
  (forall updates p,
      store w !! profile_key userId = Some p ->
      Js.get "documents_analyzed" (Js.own_props updates) = None ->
      exists p',
        store (run e n w (put_profile userId (Some updates))).1
          !! profile_key userId = Some p'
        /\ Js.get "documents_analyzed" p' = Js.get "documents_analyzed" p)
  /\ (forall r,
      writes_profile r = false ->
      store (run e n w (app_fetch r)).1 !! profile_key userId
      = store w !! profile_key userId).
Proof.
  split.
  - intros updates p Hp Hnone.
    cbn [put_profile try_catch run]. unfold kv.get. rewrite Hp.
    cbn [try_catch run fst store]. unfold kv.set.
    eexists. split; [apply lookup_insert_eq|].
    rewrite get_set_ne by done. by apply get_spread_skip.
  - intros r Hr. apply (never_sets_run is_profile_key); [|by exists userId].
    by apply app_fetch_never_sets_profile.
Qed.

Lemma counter_kept_by_requests_witness :
  let m : gmap string obj := {[ profile_key "alice" := demo_profile 4 ]} in
  let updates := VObj [("name", VStr "Alice B."); ("email", VStr "ab@example.org")] in
  let r := GetDocuments (Some "Bearer token") in
  (m !! profile_key "alice" = Some (demo_profile 4)
   /\ Js.get "documents_analyzed" (Js.own_props updates) = None
   /\ exists p',
       store (run demo_env 0 (at_rest m) (put_profile "alice" (Some updates))).1
         !! profile_key "alice" = Some p'
       /\ Js.get "documents_analyzed" p'
          = Js.get "documents_analyzed" (demo_profile 4))
  /\ (writes_profile r = false
      /\ store (run demo_env 0 (at_rest m) (app_fetch r)).1 !! profile_key "alice"
         = m !! profile_key "alice").
Proof.
  intros m updates r. split.
  - split; [apply lookup_singleton_eq|]. split; [reflexivity|].
    apply (proj1 (counter_kept_by_requests demo_env 0 (at_rest m) "alice")).
    + apply lookup_singleton_eq.
    + reflexivity.
  - split; [reflexivity|].
    apply (proj2 (counter_kept_by_requests demo_env 0 (at_rest m) "alice")).
    reflexivity.
Defined.

(** ** Listing and reading documents *)

Lemma insert_by_perm {A} (cmp : A -> A -> Z) x l : insert_by cmp x l ≡ₚ x :: l.
Proof.
  induction l as [|y r IH]; cbn; [done|].
  destruct (0 <? cmp x y)%Z; [|done].
  rewrite IH. apply Permutation_swap.
Qed.

Lemma sort_by_cons {A} (cmp : A -> A -> Z) x l :
  sort_by cmp (x :: l) = insert_by cmp x (sort_by cmp l).
Proof. reflexivity. Qed.

Lemma sort_by_perm {A} (cmp : A -> A -> Z) l : sort_by cmp l ≡ₚ l.
Proof.
  induction l as [|x l IH]; [done|].
  rewrite sort_by_cons, insert_by_perm. by rewrite IH.
Qed.

Lemma newest_first_trans a b c :
  newest_first a b -> newest_first b c -> newest_first a c.
Proof.
  unfold newest_first.
  destruct (upload_time a), (upload_time b), (upload_time c); try done. lia.
Qed.

Lemma insert_by_sorted x l :
  is_Some (upload_time x) ->
  Forall (fun y => is_Some (upload_time y)) l ->
  StronglySorted newest_first l ->
  StronglySorted newest_first (insert_by by_upload_desc x l).
Proof.
  intros [tx Hx] Hall Hs. induction Hs as [|y r Hs IH Hy]; cbn.
  - by repeat constructor.
  - apply Forall_cons in Hall as [[ty Hty] Hall].
    assert (Hcmp : by_upload_desc x y = ty - tx).
    { unfold by_upload_desc. fold (upload_time y) (upload_time x).
      by rewrite Hty, Hx. }
    rewrite Hcmp. destruct (0 <? ty - tx)%Z eqn:E.
    + apply Z.ltb_lt in E. constructor; [by apply IH|].
      rewrite insert_by_perm. constructor; [|done].
      unfold newest_first. rewrite Hty, Hx. lia.
    + apply Z.ltb_ge in E.
      assert (Hxy : newest_first x y).
      { unfold newest_first. rewrite Hty, Hx. lia. }
      constructor; [by constructor|]. constructor; [done|].
      eapply Forall_impl; [exact Hy|]. intros z Hz.
      by eapply newest_first_trans.
Qed.

Lemma sort_by_sorted l :
  Forall (fun y => is_Some (upload_time y)) l ->
  StronglySorted newest_first (sort_by by_upload_desc l).
Proof.
  induction l as [|x l IH]; intros Hall; [constructor|].
  apply Forall_cons in Hall as [Hx Hall]. rewrite sort_by_cons.
  apply insert_by_sorted; [done| |by apply IH].
  by rewrite sort_by_perm.
Qed.

Lemma starts_with_spec prefix s :
  Str.starts_with prefix s = true <-> exists rest, s = prefix +:+ rest.
Proof.
  revert s. induction prefix as [|a prefix IH]; intros s; cbn.
  - split; [by exists s|done].
  - destruct s as [|b s]; cbn.
    + split; [done|]. by intros [rest Hrest].
    + rewrite andb_true_iff, Ascii.eqb_eq, IH. split.
      * intros [-> [rest ->]]. by exists rest.
      * intros [rest [= -> ->]]. split; [done|]. by exists rest.
Qed.

Lemma elem_of_getByPrefix prefix (m : gmap string obj) d :
  d ∈ kv.getByPrefix prefix m
  <-> exists rest, m !! (prefix +:+ rest) = Some d.
Proof.
  unfold kv.getByPrefix. rewrite list_elem_of_fmap. split.
  - intros ([key d'] & -> & Hin). apply list_elem_of_In, filter_In in Hin.
    destruct Hin as [Hin Hpre]. cbn in Hpre.
    apply starts_with_spec in Hpre as [rest ->].
    apply list_elem_of_In, elem_of_map_to_list in Hin. by exists rest.
  - intros (rest & Hk). exists (prefix +:+ rest, d). split; [done|].
    apply list_elem_of_In, filter_In. split.
    + by apply list_elem_of_In, elem_of_map_to_list.
    + apply starts_with_spec. by exists rest.
Qed.

(** A record whose [user_id] is another user's is not the caller's. *)
Lemma owned_by_other userId other d :
  Js.get "user_id" d = Some (VStr other) -> other <> userId ->
  owned_by userId d = false.
Proof.
  intros Hd Hne. unfold owned_by, Js.is_string. rewrite Hd. cbn.
  by apply String.eqb_neq.
Qed.



Example listing_of_alice :
  (run demo_env 0 (at_rest demo_store) (get_documents "alice")).2
  = Returned (json
      [("documents",
        VArr [VObj (demo_document_of "doc-c" "alice" 1700000005000);
              VObj (demo_document_of "doc-a" "alice" 1700000003000)])] 200).
Proof. vm_compute. reflexivity. Qed.

(** ** The discipline of the tasks *)

Lemma follows_try_catch {A} (c : prog A) :
  (forall h, follows h c) ->
  forall (p : prog A) h, follows h p -> follows h (try_catch p c).
Proof.
  intros Hc p.
  induction p as [| | |key k IH|key v k IH|pre k IH|tok k IH|em pw nm k IH
                  |path f k IH|k IH|k IH|c0 ms k IH|ms k IH];
    intros h Hp; cbn in *; auto.
  - intros x Hx. destruct (Hp x Hx) as [H|(-> & i & j & -> & -> & H)];
      [by left; auto|].
    right. split; [done|]. exists i, j. by auto.
  - destruct Hp as [[Hk H]|[(i & -> & -> & Hv & Hs & H)
                    |[(i & j & en & -> & -> & He & Hv & Hs & H)|(i & -> & -> & H)]]].
    + left. by auto.
    + right; left. exists i. by auto 10.
    + right; right; left. exists i, j, en. by auto 10.
    + right; right; right. exists i. by auto.
  - destruct Hp as [-> H]. by auto.
  - destruct Hp as [Hc0 H]. by auto.
Qed.

Lemma follows_requireAuth a next :
  (forall userId, follows Nothing (next userId)) ->
  follows Nothing (requireAuth a next).
Proof.
  intros H. unfold requireAuth. destruct (access_token a); [|done].
  intros [userId|]; cbn; auto.
Qed.

Lemma reading_new_document documentId userId fileName path file t :
  reading (new_document documentId userId fileName path file t)
  = Some ("pending", 0).
Proof. reflexivity. Qed.

Lemma profile_key_is_profile userId : is_profile_key (profile_key userId).
Proof. by exists userId. Qed.

(** Every handler follows the discipline, holding nothing at first. *)
Lemma follows_app_fetch r : follows Nothing (app_fetch r).
Proof.
  destruct r as [body|a|a body|a form|a|a documentId]; cbn [app_fetch];
    try (apply follows_requireAuth; intros userId);
    apply follows_try_catch; try done.
  - destruct body as [[]|]; try done;
      intros [i|]; try done; intros t; left;
      (split; [apply profile_key_is_profile|done]).
  - by intros [p|] _; left.
  - destruct body as [updates|]; [|done].
    intros [p|] _; [|by left]. left. intros t. left.
    split; [apply profile_key_is_profile|done].
  - destruct form as [form|]; [|done].
    destruct (display_name form); [|done].
    destruct (form_file form) as [file|]; [|done].
    destruct (negb _); [done|].
    intros stamp [|]; [done|]. split; [done|]. intros documentId t.
    right; left. exists documentId. repeat split; try done; eauto.
    by eexists.
  - intros [d|] _; [|by left]. left. destruct (negb _); [done|].
    by intros x _; left.
Qed.

Lemma stamped_staged s d : stamped (staged s d) <-> stamped d.
Proof.
  unfold stamped, upload_time, staged. by rewrite !get_set_ne.
Qed.

Lemma follows_run_stage documentId j s entry next :
  stage_path !! S j = Some entry ->
  (stage s, progress s) = entry ->
  follows (Holds documentId (next_phase j)) next ->
  follows (Holds documentId (Stage j)) (run_stage documentId s next).
Proof.
  intros Hentry Hs Hnext. cbn. intros [d|] Hread.
  - left. right; right; left. exists documentId, j, entry.
    fold (staged s d). repeat split; try done.
    + by rewrite reading_staged, Hs.
    + rewrite stamped_staged. by eapply Hread.
  - right. split; [done|]. by exists documentId, j.
Qed.

Lemma follows_finish_analysis documentId userId :
  follows (Holds documentId Final) (finish_analysis documentId userId).
Proof.
  cbn. intros t. right; right; right. exists documentId. repeat split.
  intros [p|] _; left; [|done]. destruct (Js.add _ _); [|done].
  left. split; [apply profile_key_is_profile|done].
Qed.

(** The runner follows the discipline from the record as created. *)
Lemma follows_simulateAnalysis documentId userId :
  follows (Holds documentId (Stage 0)) (simulateAnalysis documentId userId).
Proof.
  unfold simulateAnalysis, run_stages, stages. cbn [foldr].
  repeat (eapply follows_run_stage; [reflexivity|reflexivity|]).
  apply follows_finish_analysis.
Qed.

(** ** Coherence of the store with what is held *)

(** The six parts of [coherent]. *)
Ltac split_coherent := split; [|split; [|split; [|split; [|split]]]].

Lemma shows_same b m m' h :
  (forall documentId, hold_id h = Some documentId -> same_records m m' documentId) ->
  shows b m h -> shows b m' h.
Proof.
  destruct h as [|documentId ph]; [done|]. intros H.
  destruct (H documentId eq_refl) as [Hd Ha].
  destruct ph; unfold shows, present, final, at_most; by rewrite ?Hd, ?Ha.
Qed.

Lemma shows_rest b m m' documentId rest :
  (forall i, i <> documentId -> same_records m m' i) ->
  documentId ∉ omap hold_id rest ->
  Forall (shows b m) rest -> Forall (shows b m') rest.
Proof.
  intros Hsame Hnot Hall. apply Forall_forall. intros h Hh.
  apply (shows_same b m); [|by eapply Forall_forall].
  intros i Hi. apply Hsame. intros ->. apply Hnot.
  apply list_elem_of_omap. by exists h.
Qed.

Lemma same_records_document m documentId v i :
  i <> documentId -> same_records m (<[document_key documentId := v]> m) i.
Proof.
  intros Hne. split; apply lookup_insert_ne.
  - intros H. by apply document_key_inj in H.
  - apply not_eq_sym, analysis_not_document.
Qed.

Lemma same_records_analysis m documentId v i :
  i <> documentId -> same_records m (<[analysis_key documentId := v]> m) i.
Proof.
  intros Hne. split; apply lookup_insert_ne.
  - apply analysis_not_document.
  - intros H. by apply analysis_key_inj in H.
Qed.

Lemma same_records_profile m key v i :
  is_profile_key key -> same_records m (<[key := v]> m) i.
Proof.
  intros [u ->]. split; apply lookup_insert_ne; auto with keys.
Qed.

Lemma stage_path_monotone j j' e e' :
  (j <= j')%nat ->
  stage_path !! j = Some e -> stage_path !! j' = Some e' -> e.2 <= e'.2.
Proof.
  intros Hle He He'.
  do 5 (destruct j as [|j]; [do 5 (destruct j' as [|j']; [simplify_eq/=; lia|]); done|]).
  done.
Qed.

Lemma stage_path_elem j e : stage_path !! j = Some e -> e ∈ stage_path.
Proof. apply list_elem_of_lookup_2. Qed.

Lemma stage_path_last j e :
  stage_path !! S j = Some e -> next_phase j = Final -> e = ("complete", 100).
Proof.
  unfold next_phase. intros He Hn.
  do 4 (destruct j as [|j]; [by simplify_eq/=|]). done.
Qed.

Lemma next_phase_cases j :
  next_phase j = Stage (S j) \/ next_phase j = Final.
Proof. unfold next_phase. destruct (_ <? _)%nat; auto. Qed.

(** Stores that agree on the Document records keep progress. *)
Lemma progress_kept_same (m m' : gmap string obj) :
  (forall i d, m !! document_key i = Some d ->
     (exists entry, entry ∈ stage_path /\ reading d = Some entry)
     /\ stamped d) ->
  (forall i, m' !! document_key i = m !! document_key i) ->
  progress_kept m m'.
Proof.
  intros Hpath Hsame i d d' Hd Hd'. rewrite Hsame, Hd in Hd'.
  injection Hd' as <-.
  destruct (Hpath i d Hd) as [(e & He0 & He) Hs0]. exists e, e. by repeat split.
Qed.

Lemma final_same b (m m' : gmap string obj) i :
  m' !! document_key i = m !! document_key i -> final b m i -> final b m' i.
Proof. unfold final. by intros ->. Qed.

Lemma coherent_same b held (m m' : gmap string obj) iss :
  (forall i, same_records m m' i) ->
  coherent b held m iss -> coherent b held m' iss.
Proof.
  intros Hsame (Hnd & Hiss & Hsh & HK & Hmain & Hpath).
  split_coherent; try done.
  - eapply Forall_impl; [exact Hsh|]. intros h. apply shows_same. auto.
  - intros i. destruct (Hsame i) as [-> ->]. apply HK.
  - intros i. destruct (Hsame i) as [Hd ->]. intros Hi.
    by apply (final_same b m), Hmain.
  - intros i d. destruct (Hsame i) as [-> _]. apply Hpath.
Qed.

Lemma document_lookup_insert (m : gmap string obj) i documentId v :
  i <> documentId ->
  <[document_key documentId := v]> m !! document_key i = m !! document_key i.
Proof. intros Hne. apply lookup_insert_ne. intros H. by apply document_key_inj in H. Qed.

(** One call of a task keeps the store coherent with what is held, and
    keeps the progress of every document. *)
Lemma coherent_moves b h m iss h' m' iss' rest :
  moves h m iss h' m' iss' ->
  coherent b (h :: rest) m iss ->
  coherent b (h' :: rest) m' iss' /\ progress_kept m m'.
Proof.
  intros Hmv (Hnd & Hiss & Hsh & HK & Hmain & Hpath).
  apply Forall_cons in Hsh as [Hh Hrest].
  destruct Hmv as [h m iss|documentId j m iss Hnone|documentId m iss Hfresh
                  |h key v m iss Hkey|documentId v m iss Hv Hst
                  |documentId j entry v m iss Hentry Hv Hst|documentId v m iss].
  - split; [by split_coherent; try apply Forall_cons|by apply progress_kept_same].
  - (* a turn skipped *)
    split; [|by apply progress_kept_same].
    split_coherent; try done. apply Forall_cons. split; [|done].
    destruct Hh as (Ha & Hp & Hat).
    destruct (next_phase_cases j) as [-> | ->]; cbn.
    + repeat split; try done. intros d Hd. congruence.
    + split; [done|]. unfold final. rewrite Hnone.
      destruct Hp as [Hb|[d Hd]]; [done|congruence].
  - (* an identifier drawn *)
    cbn in Hnd, Hiss.
    split; [|by apply progress_kept_same].
    split_coherent; try done.
    + cbn. apply NoDup_cons. split; [|done]. intros Hin. by apply Hfresh, Hiss.
    + cbn. intros i [->|Hi]%elem_of_cons; [by left|]. right. by apply Hiss.
    + apply Forall_cons. split; [|done]. cbn.
      split; apply eq_None_not_Some; intros Hs; apply Hfresh, HK; auto.
    + intros i Hi. right. by apply HK.
  - (* a Profile record set *)
    split; [|apply progress_kept_same; [done|]].
    + apply (coherent_same b _ m); [intros i; by apply same_records_profile|].
      by split_coherent; try apply Forall_cons.
    + intros i. by apply same_records_profile.
  - (* the Document record created *)
    cbn in Hnd, Hiss. apply NoDup_cons in Hnd as [Hnot Hnd].
    destruct Hh as (Ha & Hd).
    split.
    + split_coherent.
      * cbn. by apply NoDup_cons.
      * done.
      * apply Forall_cons. split.
        { cbn. split; [|split].
          - rewrite lookup_insert_ne; [done|apply not_eq_sym; auto with keys].
          - right. rewrite lookup_insert_eq. by eexists.
          - intros d. rewrite lookup_insert_eq. intros [= <-].
            by exists 0%nat, ("pending", 0). }
        eapply shows_rest; [|exact Hnot|exact Hrest].
        intros i Hi. by apply same_records_document.
      * intros i [Hi|Hi].
        { rewrite lookup_insert_ne in Hi by (apply not_eq_sym; auto with keys).
          apply HK. by left. }
        destruct (decide (i = documentId)) as [->|Hne].
        { apply Hiss. by left. }
        rewrite document_lookup_insert in Hi by done. apply HK. by right.
      * intros i Hi.
        rewrite lookup_insert_ne in Hi by (apply not_eq_sym; auto with keys).
        destruct (decide (i = documentId)) as [->|Hne].
        { rewrite Ha in Hi. by destruct Hi. }
        apply (final_same b m); [by apply document_lookup_insert|by apply Hmain].
      * intros i d. destruct (decide (i = documentId)) as [->|Hne].
        { rewrite lookup_insert_eq. intros [= <-]. split; [|done].
          exists ("pending", 0). split; [constructor|done]. }
        rewrite document_lookup_insert by done. apply Hpath.
    + intros i d d' Hi Hi'. destruct (decide (i = documentId)) as [->|Hne].
      { congruence. }
      rewrite document_lookup_insert in Hi' by done.
      assert (d' = d) as -> by congruence.
      destruct (Hpath i d Hi) as [(e & He0 & He) Hs0]. exists e, e. by repeat split.
  - (* the Document record moved one stage on *)
    cbn in Hnd, Hiss. apply NoDup_cons in Hnd as [Hnot Hnd].
    destruct Hh as (Ha & Hp & Hat).
    assert (Ha' : <[document_key documentId := v]> m !! analysis_key documentId = None).
    { rewrite lookup_insert_ne; [done|apply not_eq_sym; auto with keys]. }
    split.
    + split_coherent.
      * cbn. by apply NoDup_cons.
      * done.
      * apply Forall_cons. split.
        { destruct (next_phase_cases j) as [Hn|Hn]; rewrite Hn; cbn.
          - split; [done|]. split.
            + right. rewrite lookup_insert_eq. by eexists.
            + intros d. rewrite lookup_insert_eq. intros [= <-].
              by exists (S j), entry.
          - split; [done|]. unfold final. rewrite lookup_insert_eq.
            by rewrite Hv, (stage_path_last j entry). }
        eapply shows_rest; [|exact Hnot|exact Hrest].
        intros i Hi. by apply same_records_document.
      * intros i [Hi|Hi].
        { rewrite lookup_insert_ne in Hi by (apply not_eq_sym; auto with keys).
          apply HK. by left. }
        destruct (decide (i = documentId)) as [->|Hne].
        { apply Hiss. by left. }
        rewrite document_lookup_insert in Hi by done. apply HK. by right.
      * intros i Hi.
        rewrite lookup_insert_ne in Hi by (apply not_eq_sym; auto with keys).
        destruct (decide (i = documentId)) as [->|Hne].
        { rewrite Ha in Hi. by destruct Hi. }
        apply (final_same b m); [by apply document_lookup_insert|by apply Hmain].
      * intros i d. destruct (decide (i = documentId)) as [->|Hne].
        { rewrite lookup_insert_eq. intros [= <-]. split; [|done].
          exists entry. split; [by eapply stage_path_elem|done]. }
        rewrite document_lookup_insert by done. apply Hpath.
    + intros i d d' Hi Hi'. destruct (decide (i = documentId)) as [->|Hne].
      { rewrite lookup_insert_eq in Hi'. injection Hi' as <-.
        destruct (Hat d Hi) as (j0 & e0 & Hj0 & He0 & Hr0).
        exists e0, entry. repeat split; try done.
        eapply (stage_path_monotone j0 (S j)); [lia|done|done]. }
      rewrite document_lookup_insert in Hi' by done.
      assert (d' = d) as -> by congruence.
      destruct (Hpath i d Hi) as [(e & He0 & He) Hs0]. exists e, e. by repeat split.
  - (* the Analysis record written *)
    cbn in Hnd, Hiss. apply NoDup_cons in Hnd as [Hnot Hnd].
    destruct Hh as (Ha & Hfin).
    assert (Hdoc : forall i, <[analysis_key documentId := v]> m !! document_key i
                             = m !! document_key i).
    { intros i. apply lookup_insert_ne. auto with keys. }
    split; [|by apply progress_kept_same].
    split_coherent.
    + cbn. by apply NoDup_cons.
    + done.
    + apply Forall_cons. split; [by apply (final_same b m)|].
      eapply shows_rest; [|exact Hnot|exact Hrest].
      intros i Hi. by apply same_records_analysis.
    + intros i [Hi|Hi].
      * destruct (decide (i = documentId)) as [->|Hne]; [apply Hiss; by left|].
        rewrite lookup_insert_ne in Hi
          by (intros H; by apply analysis_key_inj in H).
        apply HK. by left.
      * rewrite Hdoc in Hi. apply HK. by right.
    + intros i Hi. apply (final_same b m); [done|].
      destruct (decide (i = documentId)) as [->|Hne]; [done|].
      rewrite lookup_insert_ne in Hi
        by (intros H; by apply analysis_key_inj in H).
      by apply Hmain.
    + intros i d. rewrite Hdoc. apply Hpath.
Qed.

Lemma coherent_perm b held held' m iss :
  held ≡ₚ held' -> coherent b held m iss -> coherent b held' m iss.
Proof.
  intros Hp (Hnd & Hiss & Hsh & Hrest). split_coherent; try apply Hrest.
  - by rewrite <- Hp.
  - intros i. rewrite <- Hp. apply Hiss.
  - by rewrite <- Hp.
Qed.

Lemma coherent_nothing b held m iss :
  coherent b (Nothing :: held) m iss <-> coherent b held m iss.
Proof.
  unfold coherent. cbn. rewrite Forall_cons. cbn. tauto.
Qed.

Lemma coherent_progress b held m iss :
  coherent b held m iss -> progress_kept m m.
Proof.
  intros (_ & _ & _ & _ & _ & Hpath). by apply progress_kept_same.
Qed.

(** What a task that follows the discipline does in one call. *)
Lemma exec_follows {A} h (p p' : prog A) a w w' iss :
  (forall i d, store w !! document_key i = Some d -> stamped d) ->
  follows h p ->
  exec_head a w p = Some (w', p') ->
  (draws_uuid p = true -> uuid a ∉ iss) ->
  exists h',
    follows h' p'
    /\ ((timers w' = timers w
         /\ moves h (store w) iss h' (store w')
              (if draws_uuid p then uuid a :: iss else iss))
        \/ (exists documentId userId ms,
              h = Holds documentId (Stage 0) /\ h' = Nothing
              /\ store w' = store w /\ draws_uuid p = false
              /\ timers w' = timers w ++ [(SimulateAnalysis documentId userId, ms)])).
Proof.
  intros Hst Hp Hex Hfresh.
  destruct p as [| | |key k|key v k|pre k|tok k|em pw nm k
                 |path f k|k|k|c ms k|ms k];
    cbn in Hex; try discriminate; injection Hex as <- <-; cbn in Hp.
  - assert (Hread : well_read key (kv.get key (store w))).
    { intros i d -> Hd. by eapply Hst. }
    destruct (Hp _ Hread) as [H|(Hx & i & j & -> & -> & H)].
    + exists h. split; [done|]. left. split; [done|constructor].
    + eexists. split; [exact H|]. left. split; [done|]. by constructor.
  - cbn [store timers]. unfold kv.set.
    destruct Hp as [[Hk H]|[(i & -> & -> & Hv & Hs & H)
                    |[(i & j & en & -> & -> & He & Hv & Hs & H)|(i & -> & -> & H)]]];
      (eexists; split; [exact H|]; left; split; [done|]).
    + by constructor.
    + by constructor.
    + by econstructor.
    + by constructor.
  - exists h. split; [done|]. left. split; [done|constructor].
  - exists h. split; [done|]. left. split; [done|constructor].
  - exists h. split; [done|]. left. split; [done|constructor].
  - exists h. split; [done|]. left. split; [done|constructor].
  - destruct Hp as [-> H]. eexists. split; [apply H|]. left. split; [done|].
    constructor. by apply Hfresh.
  - exists h. split; [done|]. left. split; [done|constructor].
  - destruct Hp as [(i & u & -> & ->) H]. exists Nothing. split; [done|].
    right. by exists i, u, ms.
  - exists h. split; [done|]. left. split; [done|constructor].
Qed.

Lemma timer_hold_middle (l1 l2 : list (closure * Z)) c ms :
  timer_hold <$> (l1 ++ (c, ms) :: l2)
  ≡ₚ Holds (closure_id c) (Stage 0) :: (timer_hold <$> (l1 ++ l2)).
Proof.
  rewrite !fmap_app, fmap_cons. by rewrite <- Permutation_middle.
Qed.

(** One call of the task in the middle of the pool keeps the invariant. *)
Lemma advance_invariant {A} (wrap : prog A -> task) b s l1 l2 p a w' p' :
  (forall q h, task_follows (wrap q) h = follows h q) ->
  pool s = l1 ++ wrap p :: l2 ->
  exec_head a (sys s) p = Some (w', p') ->
  (draws_uuid p = true -> uuid a ∉ issued s) ->
  invariant b s ->
  invariant b {| sys := w'; pool := l1 ++ wrap p' :: l2;
                 issued := if draws_uuid p then uuid a :: issued s
                           else issued s |}
  /\ progress_kept (store (sys s)) (store w').
Proof.
  intros Hwrap Hpool Hex Hfresh (hs & Hall & Hco).
  rewrite Hpool in Hall.
  apply Forall2_app_inv_l in Hall as (hs1 & hs' & H1 & Hall & ->).
  apply Forall2_cons_inv_l in Hall as (h & hs2 & Hh & H2 & ->).
  rewrite Hwrap in Hh.
  assert (Hstamp : forall i d,
            store (sys s) !! document_key i = Some d -> stamped d).
  { intros i d Hd. destruct Hco as (_ & _ & _ & _ & _ & Hpath).
    by destruct (Hpath i d Hd). }
  destruct (exec_follows h p p' a (sys s) w' (issued s) Hstamp Hh Hex Hfresh)
    as (h' & Hh' & [[Htm Hmv]|(i & u & ms & -> & -> & Hst & Hdraw & Htm)]).
  - assert (Hperm : forall x,
      (hs1 ++ x :: hs2) ++ (timer_hold <$> timers (sys s))
      ≡ₚ x :: (hs1 ++ hs2 ++ (timer_hold <$> timers (sys s)))).
    { intros x. rewrite <- app_assoc. cbn. symmetry. apply Permutation_middle. }
    apply (coherent_perm _ _ _ _ _ (Hperm h)) in Hco.
    destruct (coherent_moves b _ _ _ _ _ _ _ Hmv Hco) as [Hco' Hprog].
    split; [|done]. exists (hs1 ++ h' :: hs2). cbn [pool sys issued]. split.
    + apply Forall2_app; [done|]. constructor; [by rewrite Hwrap|done].
    + rewrite Htm. eapply coherent_perm; [symmetry; apply Hperm|done].
  - rewrite Hst, Hdraw. split; [|by eapply coherent_progress].
    exists (hs1 ++ Nothing :: hs2). cbn [pool sys issued]. split.
    + apply Forall2_app; [done|]. constructor; [by rewrite Hwrap|done].
    + rewrite Htm, Hst.
      eapply coherent_perm; [|apply coherent_nothing; exact Hco].
      rewrite fmap_app. cbn [fmap list_fmap timer_hold closure_id fst].
      rewrite <- !app_assoc. cbn [app].
      rewrite <- (Permutation_middle hs1 _ Nothing). constructor.
      apply Permutation_app_head. rewrite app_assoc.
      apply Permutation_cons_append.
Qed.

Lemma coherent_boot b : coherent b [] ∅ [].
Proof.
  split_coherent; try done.
  - constructor.
  - intros i [[x Hx]|[x Hx]]; by rewrite lookup_empty in Hx.
  - intros i [x Hx]. by rewrite lookup_empty in Hx.
Qed.

Lemma invariant_boot b : invariant b boot.
Proof. exists []. split; [constructor|apply coherent_boot]. Qed.

Lemma shows_delete m h documentId :
  shows true m h -> shows true (delete (document_key documentId) m) h.
Proof.
  assert (Ha : forall i, delete (document_key documentId) m !! analysis_key i
                         = m !! analysis_key i).
  { intros i. apply lookup_delete_ne. apply not_eq_sym. auto with keys. }
  destruct h as [|i [|k| |]]; cbn; rewrite ?Ha; try done.
  - intros [H1 H2]. split; [done|]. apply lookup_delete_None. by right.
  - intros (H1 & H2 & H3). repeat split; [done|by left|].
    intros d [_ Hd]%lookup_delete_Some. by apply H3.
  - intros [H1 H2]. split; [done|]. unfold final in *.
    destruct (delete _ m !! _) as [d|] eqn:Hd; [|done].
    apply lookup_delete_Some in Hd as [_ Hd]. by rewrite Hd in H2.
  - unfold final. intros H2.
    destruct (delete _ m !! _) as [d|] eqn:Hd; [|done].
    apply lookup_delete_Some in Hd as [_ Hd]. by rewrite Hd in H2.
Qed.

Lemma coherent_delete held m iss documentId :
  coherent true held m iss ->
  coherent true held (delete (document_key documentId) m) iss
  /\ progress_kept m (delete (document_key documentId) m).
Proof.
  intros (Hnd & Hiss & Hsh & HK & Hmain & Hpath).
  assert (Ha : forall i, delete (document_key documentId) m !! analysis_key i
                         = m !! analysis_key i).
  { intros i. apply lookup_delete_ne. apply not_eq_sym. auto with keys. }
  split; [split_coherent; try done|].
  - eapply Forall_impl; [exact Hsh|]. intros h. apply shows_delete.
  - intros i [Hi|[d [_ Hd]%lookup_delete_Some]]; apply HK.
    + left. by rewrite <- Ha.
    + right. by eexists.
  - intros i Hi. rewrite Ha in Hi. specialize (Hmain i Hi). unfold final in *.
    destruct (delete _ m !! _) as [d|] eqn:Hd; [|done].
    apply lookup_delete_Some in Hd as [_ Hd]. by rewrite Hd in Hmain.
  - intros i d [_ Hd]%lookup_delete_Some. by eapply Hpath.
  - intros i d d' Hd [_ Hd']%lookup_delete_Some.
    assert (d' = d) as -> by congruence.
    destruct (Hpath i d Hd) as [(e & He0 & He) Hs0]. exists e, e. by repeat split.
Qed.

(** Every move of the system keeps the invariant and the progress of
    every document. *)
Lemma step_invariant b s s' :
  invariant b s -> step b s s' ->
  invariant b s' /\ progress_kept (store (sys s)) (store (sys s')).
Proof.
  intros Hinv Hstep.
  destruct Hstep as [s r|s l1 l2 t a w' t' Hpool Hex Hfresh|s l1 l2 c ms Htm
                    |s documentId Hdel].
  - destruct Hinv as (hs & Hall & Hco).
    split; [|by eapply coherent_progress].
    exists (hs ++ [Nothing]). cbn [pool sys issued]. split.
    + apply Forall2_app; [done|]. repeat constructor. apply follows_app_fetch.
    + eapply coherent_perm; [|apply coherent_nothing; exact Hco].
      rewrite <- app_assoc. cbn [app]. apply Permutation_middle.
  - destruct t as [p|p]; cbn in Hex, Hfresh |- *;
      destruct (exec_head a (sys s) p) as [[w1 p1]|] eqn:E; simplify_eq/=.
    + by apply (advance_invariant Handler).
    + by apply (advance_invariant Job).
  - destruct Hinv as (hs & Hall & Hco).
    split; [|by eapply coherent_progress].
    exists (hs ++ [Holds (closure_id c) (Stage 0)]). cbn [pool sys issued]. split.
    + apply Forall2_app; [done|]. repeat constructor.
      destruct c as [documentId userId]. apply follows_simulateAnalysis.
    + cbn [store timers]. eapply coherent_perm; [|exact Hco].
      rewrite Htm, timer_hold_middle, <- app_assoc. cbn [app].
      by rewrite <- Permutation_middle.
  - subst b. destruct Hinv as (hs & Hall & Hco).
    cbn [sys store pool issued timers].
    destruct (coherent_delete _ _ _ documentId Hco) as [Hco' Hprog].
    split; [|done]. by exists hs.
Qed.

Lemma reachable_invariant b s : reachable b s -> invariant b s.
Proof.
  induction 1 as [|s s' _ IH Hstep]; [apply invariant_boot|].
  by apply (step_invariant b s s').
Qed.

(** ** Schedules are executions *)

Lemma play_move_step b s m s' : play_move b s m = Some s' -> step b s s'.
Proof.
  destruct m as [r|i a|j|documentId]; cbn; intros H.
  - injection H as <-. constructor.
  - destruct (pool s !! i) as [t|] eqn:Ht; [|done].
    destruct (task_step a (sys s) t) as [[w' t']|] eqn:Hex; [|done].
    destruct (task_draws t && bool_decide (uuid a ∈ issued s)) eqn:Hd; [done|].
    injection H as <-.
    apply (step_task b s (take i (pool s)) (drop (S i) (pool s)) t a w' t').
    + symmetry. by apply take_drop_middle.
    + done.
    + intros Hdraw. rewrite Hdraw in Hd. cbn in Hd.
      by apply bool_decide_eq_false in Hd.
  - destruct (timers (sys s) !! j) as [[c ms]|] eqn:Ht; [|done].
    injection H as <-. apply (step_timer b s _ _ c ms).
    symmetry. by apply take_drop_middle.
  - destruct b; [|done]. injection H as <-. by constructor.
Qed.

Lemma play_reachable b ms : forall s s',
  reachable b s -> play b s ms = Some s' -> reachable b s'.
Proof.
  induction ms as [|m ms IH]; intros s s' Hs; cbn.
  - by intros [= <-].
  - destruct (play_move b s m) as [s1|] eqn:Hm; [|done].
    apply IH. eapply reachable_step; [exact Hs|]. by eapply play_move_step.
Qed.

Lemma reading_status d s p : reading d = Some (s, p) -> status_of d = Some (VStr s).
Proof.
  unfold reading. destruct (status_of d) as [[]|]; try done.
  destruct (progress_of d) as [[| |[n [| |]]| | | |]|]; try done.
  by intros [= -> _].
Qed.

(** ** Analysis records and document status *)



Lemma play_state_end : play false boot schedule_to_end = Some state_end.
Proof. vm_compute. reflexivity. Qed.



(** ** Progress in the system *)

(** From any reachable state to the next, the progress of a Document
    record does not go down, and a Document record always reads one of
    the five values of [stage_path]. *)
Lemma progress_never_decreases deletions s s' :
  reachable deletions s -> step deletions s s' ->
  progress_kept (store (sys s)) (store (sys s'))
  /\ (forall documentId d,
        store (sys s) !! document_key documentId = Some d ->
        exists entry, entry ∈ stage_path /\ reading d = Some entry).
Proof.
  intros Hs Hstep. pose proof (reachable_invariant _ _ Hs) as Hinv. split.
  - by apply (step_invariant deletions s s').
  - destruct Hinv as (hs & _ & _ & _ & _ & _ & _ & Hpath).
    intros documentId d Hd. by destruct (Hpath documentId d Hd).
Qed.

(** ** Listings in the system *)

(** In every reachable state the records of the listing carry their
    upload time. *)
Lemma reachable_stamped deletions s d :
  reachable deletions s ->
  d ∈ kv.getByPrefix "document:" (store (sys s)) -> stamped d.
Proof.
  intros Hs [i Hd]%elem_of_getByPrefix. fold (document_key i) in Hd.
  destruct (reachable_invariant _ _ Hs) as (hs & _ & _ & _ & _ & _ & _ & Hpath).
  by destruct (Hpath i d Hd).
Qed.

(** So in every reachable state the listing is newest first. *)
Lemma reachable_listing_sorted deletions s e n userId :
  reachable deletions s ->
  exists docs,
    run e n (sys s) (get_documents userId)
    = (sys s, Returned (json [("documents", VArr (VObj <$> docs))] 200))
    /\ StronglySorted newest_first docs.
Proof.
  intros Hs. eexists. split; [reflexivity|].
  apply sort_by_sorted, Forall_forall. intros d Hd.
  apply list_elem_of_In, filter_In in Hd as [Hd _].
  eapply reachable_stamped; [exact Hs|]. by apply list_elem_of_In.
Qed.

(** ** Overlapping analyses *)

(** C7, the case that fails.  Two documents of one user are analysed at
    the same time.  When the second runner starts, the counter is 0; when
    its document is complete and the runner has ended, the counter is 2. *)
Lemma play_state_overlap_start :
  play false boot schedule_overlap_start = Some state_overlap_start.
Proof. vm_compute. reflexivity. Qed.

Lemma play_state_overlap_end :
  play false state_overlap_start schedule_overlap_rest = Some state_overlap_end.
Proof. vm_compute. reflexivity. Qed.


(** * Further properties *)

(** ** The middleware *)

Lemma split_on_none sep s : sep ∉ letters s -> Str.split_on sep s = [s].
Proof.
  induction s as [|c r IH]; cbn; [done|]. intros H.
  apply not_elem_of_cons in H as [Hc Hr].
  destruct (Ascii.eqb c sep) eqn:E; [by apply Ascii.eqb_eq in E|].
  by rewrite IH.
Qed.

Lemma split_on_first sep a b :
  sep ∉ letters a ->
  Str.split_on sep (a +:+ String sep b) = a :: Str.split_on sep b.
Proof.
  induction a as [|c r IH]; intros H.
  - change ("" +:+ String sep b) with (String sep b). cbn.
    by rewrite Ascii.eqb_refl.
  - change (String c r +:+ String sep b) with (String c (r +:+ String sep b)).
    cbn in *. apply not_elem_of_cons in H as [Hc Hr].
    destruct (Ascii.eqb c sep) eqn:E; [by apply Ascii.eqb_eq in E|].
    by rewrite IH.
Qed.

(** X1.  The middleware takes the text between the first and the second
    space of the Authorization header as the token, whatever the scheme
    word before it: a header made of a scheme without a space, a space and
    a non-empty token without a space yields that token.  A header without
    any space yields none. *)
Theorem token_follows_first_space scheme token :
  " "%char ∉ letters scheme -> " "%char ∉ letters token -> token <> "" ->
  access_token (Some (scheme +:+ " " +:+ token)) = Some token
  /\ access_token (Some scheme) = None.
Proof.
  intros Hs Ht Hne. unfold access_token. split.
  - change (" " +:+ token) with (String " " token).
    rewrite split_on_first, split_on_none by done. cbn.
    apply String.eqb_neq in Hne. by rewrite Hne.
  - by rewrite split_on_none.
Qed.

Lemma token_follows_first_space_witness :
  access_token (Some "Basic abc123") = Some "abc123"
  /\ access_token (Some "Basic") = None.
Proof.
  apply (token_follows_first_space "Basic" "abc123").
  - vm_compute. by repeat (apply not_elem_of_cons; split; [done|]);
      apply not_elem_of_nil.
  - vm_compute. by repeat (apply not_elem_of_cons; split; [done|]);
      apply not_elem_of_nil.
  - done.
Defined.

(** X2.  A request without a usable token, or whose token the identity
    provider does not resolve to a user, is answered 401 and changes
    nothing, whatever handler stands behind the middleware; so it is for
    every route of the application but registration. *)
Theorem unauthenticated_is_refused e n w authorization :
  access_token authorization = None \/ user (e n) = None ->
  (forall next, exists resp,
      run e n w (requireAuth authorization next) = (w, Returned resp)
      /\ status resp = 401)
  /\ (forall r, authorization_of r = Some authorization ->
        exists resp,
          run e n w (app_fetch r) = (w, Returned resp) /\ status resp = 401)
  /\ (forall createSignedUrl documentId, exists resp,
        run e n w (file_route createSignedUrl authorization documentId)
        = (w, Returned resp) /\ status resp = 401)
  /\ (forall body random, exists resp,
        run e n w (chat_route authorization body random) = (w, Returned resp)
        /\ status resp = 401).
Proof.
  intros H.
  assert (Hgen : forall next, exists resp,
      run e n w (requireAuth authorization next) = (w, Returned resp)
      /\ status resp = 401).
  { intros next. unfold requireAuth.
    destruct (access_token authorization) as [t|] eqn:Ht.
    - destruct H as [H|H]; [done|]. cbn [run]. rewrite H. by eexists.
    - by eexists. }
  split; [exact Hgen|]. split; [|split].
  - intros r Hr. destruct r; cbn in Hr; try done; injection Hr as ->;
      apply Hgen.
  - intros. apply Hgen.
  - intros. apply Hgen.
Qed.

Lemma unauthenticated_is_refused_witness :
  (access_token (Some "Bearer") = None \/ user (demo_env 0) = None)
  /\ exists resp,
       run demo_env 0 (at_rest demo_store) (app_fetch (GetDocuments (Some "Bearer")))
       = (at_rest demo_store, Returned resp)
       /\ status resp = 401.
Proof.
  assert (H : access_token (Some "Bearer") = None \/ user (demo_env 0) = None)
    by (left; reflexivity).
  split; [exact H|].
  apply (proj1 (proj2 (unauthenticated_is_refused demo_env 0 (at_rest demo_store)
                         (Some "Bearer") H))).
  reflexivity.
Defined.

(** ** Requests as a whole *)

Ltac answered :=
  eexists _, _; split; [reflexivity|]; split;
    [by repeat constructor|cbn; intros Hno; try done; by destruct Hno].

(** X3.  Every request to the application is answered: no exception
    leaves a handler.  The status is 200, 400, 401, 404 or 500, and a
    request that is not answered 200 leaves the store, the timers and the
    history of writes as they were. *)
Theorem refused_request_changes_nothing e n w r :
  exists w' resp,
    run e n w (app_fetch r) = (w', Returned resp)
    /\ status resp ∈ [200; 400; 401; 404; 500]
    /\ (status resp <> 200 -> w' = w).
Proof.
  destruct r as [body|a|a body|a form|a|a documentId]; cbn [app_fetch].
  - unfold signup. destruct body as [[]|]; cbn [try_catch run];
      try destruct (created (e n)); answered.
  - unfold requireAuth. destruct (access_token a); [|answered].
    cbn [run]. destruct (user (e n)) as [userId|]; [|answered].
    cbn [get_profile try_catch run].
    destruct (kv.get _ _); answered.
  - unfold requireAuth. destruct (access_token a); [|answered].
    cbn [run]. destruct (user (e n)) as [userId|]; [|answered].
    destruct body as [updates|]; [|answered].
    cbn [put_profile try_catch run].
    destruct (kv.get _ _); answered.
  - unfold requireAuth. destruct (access_token a); [|answered].
    cbn [run]. destruct (user (e n)) as [userId|]; [|answered].
    unfold upload_document.
    destruct form as [form|]; [|answered].
    destruct (display_name form); [|answered].
    destruct (form_file form); [|answered].
    destruct (negb _); [answered|].
    cbn [try_catch run]. destruct (uploadError _); answered.
  - unfold requireAuth. destruct (access_token a); [|answered].
    cbn [run]. destruct (user (e n)) as [userId|]; answered.
  - unfold requireAuth. destruct (access_token a); [|answered].
    cbn [run]. destruct (user (e n)) as [userId|]; [|answered].
    cbn [get_analysis try_catch run].
    destruct (kv.get _ _); [|answered].
    destruct (negb _); answered.
Qed.

(** ** Registration and profiles *)

Lemma get_app k (o1 o2 : obj) :
  Js.get k (o1 ++ o2) = match Js.get k o1 with
                        | Some v => Some v
                        | None => Js.get k o2
                        end.
Proof.
  induction o1 as [|[k' v'] r IH]; cbn; [done|].
  by destruct (String.eqb k' k).
Qed.

Lemma get_member k k' v :
  Js.get k' (member k v) = if String.eqb k k' then v else None.
Proof.
  destruct v as [x|]; cbn; by destruct (String.eqb k k').
Qed.

Lemma run_signup e n w b id :
  b <> VNull -> created (e n) = Some id ->
  run e n w (signup (Some b))
  = (with_profile id
       (new_profile id (prop b "email") (prop b "name") (now (e (S n)))) w,
     Returned (json [("user", VObj [("id", VStr id)])] 200)).
Proof.
  intros Hb Hid. unfold signup.
  destruct b; try done; cbn [try_catch run]; by rewrite Hid.
Qed.

Lemma get_new_profile id email name t k :
  Js.get k (new_profile id email name t)
  = if String.eqb "id" k then Some (VStr id)
    else if String.eqb "email" k && bool_decide (is_Some email) then email
    else if String.eqb "name" k && bool_decide (is_Some name) then name
    else Js.get k [("created_at", VTime t); ("documents_analyzed", VInt 0);
                   ("subscription_tier", VStr "free")].
Proof.
  unfold new_profile. cbn [app Js.get]. destruct (String.eqb "id" k); [done|].
  rewrite get_app, get_member.
  destruct (String.eqb "email" k), email; cbn [andb bool_decide]; try done;
    rewrite get_app, get_member;
    destruct (String.eqb "name" k), name; done.
Qed.

Lemma run_get_profile e n w userId p :
  store w !! profile_key userId = Some p ->
  run e n w (get_profile userId)
  = (w, Returned (json [("profile", VObj p)] 200)).
Proof.
  intros H. cbn [get_profile try_catch run]. unfold kv.get. by rewrite H.
Qed.

(** X4.  A registration the identity provider accepts writes one record,
    the new user's profile, and answers 200 with the user.  The profile
    carries the user's identifier, the email and the name of the body
    when they are given, the time of the write, a counter of 0 and the
    tier free; the password is not part of it. *)
Theorem signup_creates_profile e n w b id :
  b <> VNull -> created (e n) = Some id ->
  exists profile,
    run e n w (signup (Some b))
    = ({| store := <[profile_key id := profile]> (store w);
          timers := timers w;
          writes := writes w ++ [(profile_key id, profile)] |},
       Returned (json [("user", VObj [("id", VStr id)])] 200))
    /\ Js.get "id" profile = Some (VStr id)
    /\ Js.get "email" profile = prop b "email"
    /\ Js.get "name" profile = prop b "name"
    /\ Js.get "created_at" profile = Some (VTime (now (e (S n))))
    /\ Js.get "documents_analyzed" profile = Some (VInt 0)
    /\ Js.get "subscription_tier" profile = Some (VStr "free")
    /\ Js.get "password" profile = None.
Proof.
  intros Hb Hid. eexists. split; [by apply run_signup|].
  rewrite !get_new_profile. cbn.
  split; [done|]. split; [by destruct (prop b "email")|].
  split; [by destruct (prop b "email"), (prop b "name")|].
  by destruct (prop b "email"), (prop b "name").
Qed.

Lemma signup_creates_profile_witness :
  let b := VObj [ ("email", VStr "alice@example.org");
                  ("password", VStr "secret"); ("name", VStr "Alice") ] in
  b <> VNull /\ created (demo_env 0) = Some "alice"
  /\ exists profile,
       (run demo_env 0 (at_rest ∅) (signup (Some b))).2
       = Returned (json [("user", VObj [("id", VStr "alice")])] 200)
       /\ store (run demo_env 0 (at_rest ∅) (signup (Some b))).1
            !! profile_key "alice" = Some profile
       /\ Js.get "documents_analyzed" profile = Some (VInt 0)
       /\ Js.get "password" profile = None.
Proof.
  intros b.
  assert (Hb : b <> VNull) by done.
  assert (Hc : created (demo_env 0) = Some "alice") by reflexivity.
  split; [exact Hb|]. split; [exact Hc|].
  destruct (signup_creates_profile demo_env 0 (at_rest ∅) b "alice" Hb Hc)
    as (profile & Hrun & _ & _ & _ & _ & Hcount & _ & Hpw).
  exists profile. rewrite Hrun. split; [reflexivity|].
  split; [apply lookup_insert_eq|]. split; [exact Hcount|exact Hpw].
Defined.

(** X5.  A registration that fails writes nothing: when the identity
    provider refuses the account the answer is 400, and when the body is
    missing or null it is 500; no profile is created either way. *)
Theorem failed_signup_creates_nothing e n w body :
  created (e n) = None \/ body = None \/ body = Some VNull ->
  exists resp,
    run e n w (signup body) = (w, Returned resp)
    /\ status resp = match body with
                      | None | Some VNull => 500
                      | Some _ => 400
                      end.
Proof.
  intros H. unfold signup.
  destruct body as [b|]; [|by eexists].
  destruct H as [H|[H|H]]; [|done|].
  - destruct b; cbn [try_catch run]; rewrite ?H; by eexists.
  - injection H as ->. by eexists.
Qed.

Lemma failed_signup_creates_nothing_witness :
  let e := fun n => {| now := now (demo_env n); uuid := uuid (demo_env n);
                       uploadError := false; user := None; created := None |} in
  let body := Some (VObj [("email", VStr "alice@example.org")]) in
  (created (e 0%nat) = None \/ body = None \/ body = Some VNull)
  /\ exists resp,
       run e 0 (at_rest demo_store) (signup body) = (at_rest demo_store, Returned resp)
       /\ status resp = 400.
Proof.
  intros e body.
  assert (H : created (e 0%nat) = None \/ body = None \/ body = Some VNull)
    by (left; reflexivity).
  split; [exact H|].
  exact (failed_signup_creates_nothing e 0 (at_rest demo_store) body H).
Defined.

(** X6.  After a registration, the profile route answers the new user
    with the record the registration wrote, and writes nothing. *)
Theorem signup_then_get_profile e n w b id e' n' :
  b <> VNull -> created (e n) = Some id ->
  let w1 := (run e n w (signup (Some b))).1 in
  exists profile,
    store w1 !! profile_key id = Some profile
    /\ run e' n' w1 (get_profile id)
       = (w1, Returned (json [("profile", VObj profile)] 200))
    /\ Js.get "documents_analyzed" profile = Some (VInt 0)
    /\ Js.get "subscription_tier" profile = Some (VStr "free").
Proof.
  intros Hb Hid w1. subst w1. rewrite (run_signup e n w b id Hb Hid).
  eexists. split; [apply lookup_insert_eq|]. split.
  - apply run_get_profile, lookup_insert_eq.
  - rewrite !get_new_profile. cbn.
    by destruct (prop b "email"), (prop b "name").
Qed.

Lemma signup_then_get_profile_witness :
  let b := VObj [ ("email", VStr "alice@example.org");
                  ("password", VStr "secret"); ("name", VStr "Alice") ] in
  let w1 := (run demo_env 0 (at_rest ∅) (signup (Some b))).1 in
  b <> VNull /\ created (demo_env 0) = Some "alice"
  /\ exists profile,
       run demo_env 5 w1 (get_profile "alice")
       = (w1, Returned (json [("profile", VObj profile)] 200))
       /\ Js.get "documents_analyzed" profile = Some (VInt 0).
Proof.
  intros b w1.
  assert (Hb : b <> VNull) by done.
  assert (Hc : created (demo_env 0) = Some "alice") by reflexivity.
  split; [exact Hb|]. split; [exact Hc|].
  destruct (signup_then_get_profile demo_env 0 (at_rest ∅) b "alice" demo_env 5
              Hb Hc) as (profile & _ & Hget & Hcount & _).
  exists profile. split; [exact Hget|exact Hcount].
Defined.

Lemma get_spread k o props :
  Js.get k (Js.spread o props)
  = match Js.get k (rev props) with
    | Some v => Some v
    | None => Js.get k o
    end.
Proof.
  unfold Js.spread. induction props as [|[k' v'] r IH] using rev_ind; [done|].
  rewrite fold_left_app, rev_app_distr. cbn.
  destruct (String.eqb k' k) eqn:E.
  - apply String.eqb_eq in E as ->. apply get_set_eq.
  - apply String.eqb_neq in E. by rewrite get_set_ne.
Qed.

Lemma run_put_profile e n w userId updates current :
  store w !! profile_key userId = Some current ->
  let updatedProfile :=
    Js.set "updated_at" (VTime (now (e (S n))))
      (Js.spread current (Js.own_props updates)) in
  run e n w (put_profile userId (Some updates))
  = (with_profile userId updatedProfile w,
     Returned (json [("profile", VObj updatedProfile)] 200)).
Proof.
  intros H. cbn [put_profile try_catch run]. unfold kv.get. by rewrite H.
Qed.

(** X7.  A profile update on an existing profile writes one record and
    answers 200 with it.  In that record [updated_at] is the time of the
    server's clock, also when the body names an [updated_at] of its own;
    every other member is the last one of that name in the body, or, when
    the body has none, the member of the profile as it was. *)
Theorem put_profile_merges e n w userId updates current :
  store w !! profile_key userId = Some current ->
  exists updatedProfile,
    run e n w (put_profile userId (Some updates))
    = ({| store := <[profile_key userId := updatedProfile]> (store w);
          timers := timers w;
          writes := writes w ++ [(profile_key userId, updatedProfile)] |},
       Returned (json [("profile", VObj updatedProfile)] 200))
    /\ Js.get "updated_at" updatedProfile = Some (VTime (now (e (S n))))
    /\ (forall k, k <> "updated_at" ->
          Js.get k updatedProfile
          = match Js.get k (rev (Js.own_props updates)) with
            | Some v => Some v
            | None => Js.get k current
            end).
Proof.
  intros H. eexists. split; [by apply run_put_profile|]. split.
  - apply get_set_eq.
  - intros k Hk. rewrite get_set_ne by done. apply get_spread.
Qed.

Lemma put_profile_merges_witness :
  let m : gmap string obj := {[ profile_key "alice" := demo_profile 4 ]} in
  let updates := VObj [ ("name", VStr "Alice B.");
                        ("updated_at", VStr "yesterday") ] in
  m !! profile_key "alice" = Some (demo_profile 4)
  /\ exists updatedProfile,
       (run demo_env 0 (at_rest m) (put_profile "alice" (Some updates))).2
       = Returned (json [("profile", VObj updatedProfile)] 200)
       /\ Js.get "updated_at" updatedProfile = Some (VTime 1700000001000)
       /\ Js.get "name" updatedProfile = Some (VStr "Alice B.")
       /\ Js.get "email" updatedProfile = Some (VStr "alice@example.org").
Proof.
  intros m updates.
  assert (H : m !! profile_key "alice" = Some (demo_profile 4))
    by apply lookup_singleton_eq.
  split; [exact H|].
  destruct (put_profile_merges demo_env 0 (at_rest m) "alice" updates
              (demo_profile 4) H) as (p & Hrun & Hat & Hrest).
  exists p. rewrite Hrun. split; [reflexivity|]. split; [exact Hat|].
  split; [exact (Hrest "name" ltac:(done))|exact (Hrest "email" ltac:(done))].
Defined.

(** X8.  Saving the profile page sends the name and the email of the
    form.  On an existing profile the stored record then has that name and
    that email and the server's time as [updated_at]; every other member,
    the counter, the tier, the identifier and the creation time among
    them, is as it was. *)
Theorem profile_page_save e n w userId name email current :
  store w !! profile_key userId = Some current ->
  exists p,
    store (run e n w (put_profile userId (Some (handleSave_body name email)))).1
      !! profile_key userId = Some p
    /\ Js.get "name" p = Some (VStr name)
    /\ Js.get "email" p = Some (VStr email)
    /\ Js.get "updated_at" p = Some (VTime (now (e (S n))))
    /\ (forall k, k ∉ ["name"; "email"; "updated_at"] ->
          Js.get k p = Js.get k current).
Proof.
  intros H. rewrite (run_put_profile e n w userId _ current H). cbn zeta.
  eexists. split; [apply lookup_insert_eq|].
  split; [|split; [|split]].
  - rewrite get_set_ne by done. by rewrite get_spread.
  - rewrite get_set_ne by done. by rewrite get_spread.
  - apply get_set_eq.
  - intros k Hk. apply not_elem_of_cons in Hk as [Hname Hk].
    apply not_elem_of_cons in Hk as [Hemail Hk].
    apply not_elem_of_cons in Hk as [Hat _].
    rewrite get_set_ne by done. rewrite get_spread.
    unfold handleSave_body, Js.own_props. cbn [rev app Js.get].
    apply String.eqb_neq in Hname, Hemail.
    rewrite String.eqb_sym in Hname. rewrite String.eqb_sym in Hemail.
    by rewrite Hname, Hemail.
Qed.

Lemma profile_page_save_witness :
  let m : gmap string obj := {[ profile_key "alice" := demo_profile 4 ]} in
  m !! profile_key "alice" = Some (demo_profile 4)
  /\ exists p,
       store (run demo_env 0 (at_rest m)
                (put_profile "alice"
                   (Some (handleSave_body "Alice B." "ab@example.org")))).1
         !! profile_key "alice" = Some p
       /\ Js.get "name" p = Some (VStr "Alice B.")
       /\ Js.get "documents_analyzed" p = Some (VInt 4)
       /\ Js.get "subscription_tier" p = Some (VStr "free").
Proof.
  intros m.
  assert (H : m !! profile_key "alice" = Some (demo_profile 4))
    by apply lookup_singleton_eq.
  split; [exact H|].
  destruct (profile_page_save demo_env 0 (at_rest m) "alice" "Alice B."
              "ab@example.org" (demo_profile 4) H)
    as (p & Hp & Hname & _ & _ & Hrest).
  exists p. split; [exact Hp|]. split; [exact Hname|].
  split; rewrite Hrest; try reflexivity.
  all: intros Hin; apply list_elem_of_In in Hin; cbn in Hin;
    by destruct Hin as [?|[?|[?|[]]]].
Defined.

(** X9.  What a profile update answers is what the profile route answers
    next: the update is stored whole. *)
Theorem put_then_get_profile e n w userId updates current e' n' :
  store w !! profile_key userId = Some current ->
  exists w1 resp,
    run e n w (put_profile userId (Some updates)) = (w1, Returned resp)
    /\ status resp = 200
    /\ run e' n' w1 (get_profile userId) = (w1, Returned resp).
Proof.
  intros H. rewrite (run_put_profile e n w userId updates current H). cbn zeta.
  eexists _, _. split; [reflexivity|]. split; [reflexivity|].
  apply run_get_profile, lookup_insert_eq.
Qed.

Lemma put_then_get_profile_witness :
  let m : gmap string obj := {[ profile_key "alice" := demo_profile 4 ]} in
  let updates := VObj [("name", VStr "Alice B.")] in
  m !! profile_key "alice" = Some (demo_profile 4)
  /\ exists w1 resp,
       run demo_env 0 (at_rest m) (put_profile "alice" (Some updates))
       = (w1, Returned resp)
       /\ status resp = 200
       /\ run demo_env 9 w1 (get_profile "alice") = (w1, Returned resp).
Proof.
  intros m updates.
  assert (H : m !! profile_key "alice" = Some (demo_profile 4))
    by apply lookup_singleton_eq.
  split; [exact H|].
  exact (put_then_get_profile demo_env 0 (at_rest m) "alice" updates
           (demo_profile 4) demo_env 9 H).
Defined.

(** ** Routes that only read *)

(** X10.  The routes that read, the profile, the listing, the analysis,
    the file URL and the chat, leave the store, the timers and the history
    of writes as they were, whatever they answer. *)
Theorem read_routes_write_nothing e n w a documentId createSignedUrl body random :
  (run e n w (app_fetch (GetProfile a))).1 = w
  /\ (run e n w (app_fetch (GetDocuments a))).1 = w
  /\ (run e n w (app_fetch (GetAnalysis a documentId))).1 = w
  /\ (run e n w (file_route createSignedUrl a documentId)).1 = w
  /\ (run e n w (chat_route a body random)).1 = w.
Proof.
  unfold file_route, chat_route. cbn [app_fetch]. unfold requireAuth.
  destruct (access_token a); [|done]. cbn [run].
  destruct (user (e n)) as [userId|]; [|done].
  split; [|split; [|split; [|split]]].
  - cbn [get_profile try_catch run]. by destruct (kv.get _ _).
  - done.
  - cbn [get_analysis try_catch run].
    destruct (kv.get _ _); [|done]. by destruct (negb _).
  - cbn [get_file try_catch run].
    destruct (kv.get _ _); [|done]. destruct (negb _); [done|].
    cbn zeta. destruct (SignedUrl.data _); [|done].
    by destruct (SignedUrl.error _).
  - unfold chat. by destruct body as [[]|].
Qed.

(** ** File URLs *)

Lemma run_get_file e n w createSignedUrl userId documentId d :
  store w !! document_key documentId = Some d ->
  owned_by userId d = true ->
  run e n w (get_file createSignedUrl userId documentId)
  = (w, let answer := createSignedUrl (Js.get "file_path" d) 3600 in
        match SignedUrl.data answer with
        | None => Returned (error_json "Failed to get file URL" 500)
        | Some signedUrl =>
            if SignedUrl.error answer then
              Returned (error_json "Failed to generate file URL" 500)
            else Returned (json (member "url" signedUrl) 200)
        end).
Proof.
  intros Hd Ho. cbn [get_file try_catch run]. unfold kv.get.
  rewrite Hd, Ho. cbn [negb]. cbn zeta.
  destruct (SignedUrl.data _); [|done]. by destruct (SignedUrl.error _).
Qed.


(** ** The assistant *)




(** ** Start-up *)

(** X13.  At start-up the bucket is created exactly when the storage does
    not list it: private, and admitting the three types the upload handler
    admits.  Once the storage lists the bucket, a start-up creates
    nothing. *)
Theorem bucket_created_when_missing buckets :
  match initializeStorage buckets with
  | Some (name, options) =>
      name = bucketName
      /\ (bucketName ∉ default [] buckets)
      /\ Bucket.public options = false
      /\ Bucket.allowedMimeTypes options = allowedTypes
      /\ (forall others, name ∈ others -> initializeStorage (Some others) = None)
  | None => bucketName ∈ (default [] buckets)
  end.
Proof.
  assert (Hex : forall l : list string,
             existsb (fun name => String.eqb name bucketName) l = true
             <-> bucketName ∈ l).
  { intros l. rewrite existsb_exists. split.
    - intros (x & Hx & Heq). apply String.eqb_eq in Heq as ->.
      by apply list_elem_of_In.
    - intros H. exists bucketName. split; [by apply list_elem_of_In|].
      apply String.eqb_refl. }
  unfold initializeStorage. destruct buckets as [l|]; cbn [fmap option_fmap option_map default].
  - destruct (existsb _ l) eqn:E; cbn [negb].
    + by apply Hex.
    + split; [done|]. split; [|split; [done|split; [done|]]].
      * intros H. apply (proj2 (Hex l)) in H. congruence.
      * intros others H. apply (proj2 (Hex others)) in H.
        cbn [fmap option_fmap option_map default]. by rewrite H.
  - split; [done|]. split; [apply not_elem_of_nil|split; [done|split; [done|]]].
    intros others H. apply (proj2 (Hex others)) in H.
    cbn [fmap option_fmap option_map default]. by rewrite H.
Qed.

(** ** Uploads *)

(** The upload handler on a form with a file of an allowed type. *)
Lemma run_upload_document e n w userId form file fileName :
  form_file form = Some file ->
  display_name form = Some fileName ->
  includes allowedTypes (File.type file) = true ->
  let path := unique_file_name userId (now (e n)) fileName file in
  let documentId := uuid (e (2 + n)%nat) in
  let document :=
    new_document documentId userId fileName path file (now (e (3 + n)%nat)) in
  run e n w (upload_document userId (Some form))
  = (if uploadError (e (S n)) then
       (w, Returned (error_json "Failed to upload document" 500))
     else
       (with_document documentId userId document w,
        Returned (json [("document", VObj document)] 200)))
  /\ uploads e n w (upload_document userId (Some form)) = [(path, file)].
Proof.
  intros Hfile Hname Htype. cbn zeta. unfold upload_document.
  rewrite Hname, Hfile, Htype. cbn [negb try_catch run uploads].
  by destruct (uploadError (e (S n))).
Qed.

Lemma get_staged k s d :
  k <> "analysis_status" -> k <> "analysis_progress" ->
  Js.get k (staged s d) = Js.get k d.
Proof.
  intros H1 H2. unfold staged. rewrite !get_set_ne; done.
Qed.

(** X14.  The file a valid upload hands to the object storage goes under
    one path, and that path is the one the file URL route later asks the
    storage to sign for the owner, with an expiry of 3600 seconds: the
    answer of the route depends on the storage only through what it says
    for that path and that expiry. *)
Theorem signed_path_is_uploaded_path e n w userId form file e' n' :
  form_file form = Some file ->
  File.type file ∈ allowedTypes ->
  uploadError (e (S n)) = false ->
  let documentId := uuid (e (2 + n)%nat) in
  let w1 := (run e n w (upload_document userId (Some form))).1 in
  exists path,
    uploads e n w (upload_document userId (Some form)) = [(path, file)]
    /\ (forall createSignedUrl signedUrl,
          createSignedUrl (Some (VStr path)) 3600
          = {| SignedUrl.data := Some signedUrl; SignedUrl.error := false |} ->
          run e' n' w1 (get_file createSignedUrl userId documentId)
          = (w1, Returned (json (member "url" signedUrl) 200)))
    /\ (forall createSignedUrl createSignedUrl',
          createSignedUrl (Some (VStr path)) 3600
          = createSignedUrl' (Some (VStr path)) 3600 ->
          run e' n' w1 (get_file createSignedUrl userId documentId)
          = run e' n' w1 (get_file createSignedUrl' userId documentId)).
Proof.
  intros Hfile Htype Hup documentId w1. subst documentId w1.
  destruct (display_name_file form file Hfile) as [fileName Hname].
  apply includes_elem_of in Htype.
  destruct (run_upload_document e n w userId form file fileName Hfile Hname Htype)
    as [Hrun Hups].
  rewrite Hrun, Hup. cbn [fst]. eexists. split; [exact Hups|].
  set (path := unique_file_name userId (now (e n)) fileName file).
  set (d := new_document _ _ _ _ _ _).
  set (w1 := with_document _ _ d w).
  assert (Hd : store w1 !! document_key (uuid (e (2 + n)%nat)) = Some d)
    by apply lookup_insert_eq.
  assert (Ho : owned_by userId d = true).
  { unfold owned_by, Js.is_string, d, new_document.
    cbn [Js.get String.eqb Ascii.eqb Bool.eqb Js.as_string].
    by rewrite String.eqb_refl. }
  assert (Hp : Js.get "file_path" d = Some (VStr path)) by reflexivity.
  split.
  - intros createSignedUrl signedUrl Hs.
    rewrite (run_get_file e' n' w1 createSignedUrl userId _ d Hd Ho), Hp.
    cbn zeta. by rewrite Hs.
  - intros createSignedUrl createSignedUrl' Hs.
    rewrite !(run_get_file e' n' w1 _ userId _ d Hd Ho), Hp.
    cbn zeta. by rewrite Hs.
Qed.

Lemma signed_path_is_uploaded_path_witness :
  let form := {| form_file := Some demo_file; form_fileName := Some "my lease.pdf" |} in
  let w1 := (run demo_env 0 (at_rest ∅) (upload_document "alice" (Some form))).1 in
  form_file form = Some demo_file
  /\ File.type demo_file ∈ allowedTypes
  /\ uploadError (demo_env 1) = false
  /\ exists path,
       uploads demo_env 0 (at_rest ∅) (upload_document "alice" (Some form))
       = [(path, demo_file)]
       /\ forall createSignedUrl signedUrl,
            createSignedUrl (Some (VStr path)) 3600
            = {| SignedUrl.data := Some signedUrl; SignedUrl.error := false |} ->
            run demo_env 9 w1 (get_file createSignedUrl "alice" "doc-2")
            = (w1, Returned (json (member "url" signedUrl) 200)).
Proof.
  intros form w1.
  assert (Hfile : form_file form = Some demo_file) by reflexivity.
  assert (Htype : File.type demo_file ∈ allowedTypes) by (by repeat constructor).
  assert (Hup : uploadError (demo_env 1) = false) by reflexivity.
  split; [exact Hfile|]. split; [exact Htype|]. split; [exact Hup|].
  destruct (signed_path_is_uploaded_path demo_env 0 (at_rest ∅) "alice" form
              demo_file demo_env 9 Hfile Htype Hup) as (path & Hups & Hsigned & _).
  exists path. split; [exact Hups|exact Hsigned].
Defined.

(** ** The path of a stored file *)









(** ** The upload page against the upload route *)

Lemma elem_of_newFiles randomUUID fileList : forall k u,
  u ∈ DocumentUpload.newFiles randomUUID k fileList ->
  DocumentUpload.file u ∈ fileList
  /\ includes DocumentUpload.allowedTypes (File.type (DocumentUpload.file u)) = true
  /\ File.size (DocumentUpload.file u) <= 50 * 1024 * 1024
  /\ DocumentUpload.progress u = 0
  /\ DocumentUpload.status u = "pending"
  /\ DocumentUpload.error u = None.
Proof.
  induction fileList as [|f rest IH]; intros k u; cbn [DocumentUpload.newFiles].
  - by intros ?%elem_of_nil.
  - destruct (includes _ _) eqn:Ht; cbn [negb].
    + destruct (50 * 1024 * 1024 <? File.size f)%Z eqn:Hs.
      * intros H. destruct (IH _ _ H) as [Hin Hrest].
        split; [by apply list_elem_of_further|done].
      * intros [->|H]%elem_of_cons.
        -- cbn. split; [apply list_elem_of_here|]. split; [done|].
           split; [by apply Z.ltb_ge in Hs|done].
        -- destruct (IH _ _ H) as [Hin Hrest].
           split; [by apply list_elem_of_further|done].
    + intros H. destruct (IH _ _ H) as [Hin Hrest].
      split; [by apply list_elem_of_further|done].
Qed.

(** X16.  Every entry the upload page queues is one of the chosen files,
    of one of the three allowed types and of at most 50 MB, pending at
    progress 0.  The form the page posts for it carries the file and its
    name, so the upload route never answers it 400: the answer is 200
    with a Document named after the file when the storage takes the file,
    and 500 when it does not; the page marks the entry complete exactly in
    the first case. *)
Theorem queued_file_passes_validation randomUUID fileList prevFiles u e n w userId :
  u ∈ DocumentUpload.handleFiles randomUUID fileList prevFiles ->
  u ∉ prevFiles ->
  (DocumentUpload.file u ∈ fileList
   /\ File.type (DocumentUpload.file u) ∈ allowedTypes
   /\ File.size (DocumentUpload.file u) <= 52428800
   /\ DocumentUpload.progress u = 0
   /\ DocumentUpload.status u = "pending")
  /\ exists w' resp,
       run e n w (upload_document userId (Some (DocumentUpload.formData u)))
       = (w', Returned resp)
       /\ status resp = (if uploadError (e (S n)) then 500 else 200)
       /\ ok resp = negb (uploadError (e (S n)))
       /\ (uploadError (e (S n)) = false ->
           exists d, body resp = [("document", VObj d)]
                     /\ Js.get "name" d
                        = Some (VStr (File.name (DocumentUpload.file u)))).
Proof.
  intros Hin Hnew. unfold DocumentUpload.handleFiles in Hin.
  apply elem_of_app in Hin as [Hin|Hin]; [done|].
  apply elem_of_newFiles in Hin as (Hfile & Htype & Hsize & Hp & Hst & _).
  split.
  { split; [done|]. split; [by apply includes_elem_of|]. done. }
  set (file := DocumentUpload.file u) in *.
  assert (Hname : display_name (DocumentUpload.formData u)
                  = Some (File.name file)).
  { unfold display_name, DocumentUpload.formData.
    cbn [form_fileName form_file fmap option_fmap option_map].
    by destruct (String.eqb _ _). }
  destruct (run_upload_document e n w userId (DocumentUpload.formData u) file
              (File.name file) eq_refl Hname Htype) as [Hrun _].
  rewrite Hrun. destruct (uploadError (e (S n))).
  - eexists _, _. split; [reflexivity|]. done.
  - eexists _, _. split; [reflexivity|]. split; [done|]. split; [done|].
    intros _. eexists. split; [reflexivity|]. reflexivity.
Qed.

Lemma queued_file_passes_validation_witness :
  let note := {| File.name := "notes.txt"; File.type := "text/plain";
                 File.size := 120 |} in
  let u := {| DocumentUpload.id := "u-0"; DocumentUpload.file := demo_file;
              DocumentUpload.progress := 0; DocumentUpload.status := "pending";
              DocumentUpload.error := None |} in
  u ∈ DocumentUpload.handleFiles (fun k => "u-" +:+ pretty k) [note; demo_file] []
  /\ (u ∉ [])
  /\ exists w' resp,
       run demo_env 0 (at_rest ∅)
         (upload_document "alice" (Some (DocumentUpload.formData u)))
       = (w', Returned resp)
       /\ status resp = 200.
Proof.
  intros note u.
  assert (Hin : u ∈ DocumentUpload.handleFiles (fun k => "u-" +:+ pretty k)
                      [note; demo_file] []).
  { vm_compute. apply list_elem_of_here. }
  assert (Hnew : u ∉ []) by apply not_elem_of_nil.
  split; [exact Hin|]. split; [exact Hnew|].
  destruct (queued_file_passes_validation _ _ _ u demo_env 0 (at_rest ∅) "alice"
              Hin Hnew) as (_ & w' & resp & Hrun & Hstatus & _).
  exists w', resp. split; [exact Hrun|exact Hstatus].
Defined.

(** ** The queue of the upload page *)





(** ** The progress bar of an upload *)

(** X18.  While an upload is on its way, the entry shows the status
    uploading and a progress that starts at 10, grows by 10 with every
    turn of the timer and stops at 90; it shows 100 only once the
    response is in and is ok, and with it the status complete.  The other
    entries of the list are not touched. *)
Theorem progress_waits_for_the_response u files k resp :
  let during := Nat.iter k (DocumentUpload.tick u) (DocumentUpload.started u files) in
  Forall2
    (fun before after =>
       if String.eqb (DocumentUpload.id before) (DocumentUpload.id u) then
         DocumentUpload.progress after = Z.min (10 + 10 * Z.of_nat k) 90
         /\ DocumentUpload.status after = "uploading"
         /\ DocumentUpload.id after = DocumentUpload.id before
         /\ DocumentUpload.file after = DocumentUpload.file before
       else after = before)
    files during
  /\ Forall2
       (fun before after =>
          if String.eqb (DocumentUpload.id before) (DocumentUpload.id u) then
            if ok resp then
              DocumentUpload.progress after = 100
              /\ DocumentUpload.status after = "complete"
            else
              DocumentUpload.progress after <= 90
              /\ DocumentUpload.status after = "error"
          else after = before)
       files (DocumentUpload.finished u resp during).
Proof.
  intros during.
  assert (Hd : Forall2
    (fun before after =>
       if String.eqb (DocumentUpload.id before) (DocumentUpload.id u) then
         DocumentUpload.progress after = Z.min (10 + 10 * Z.of_nat k) 90
         /\ DocumentUpload.status after = "uploading"
         /\ DocumentUpload.id after = DocumentUpload.id before
         /\ DocumentUpload.file after = DocumentUpload.file before
       else after = before)
    files during).
  { subst during. induction k as [|k IH].
    - cbn [Nat.iter]. unfold DocumentUpload.started.
      apply Forall2_fmap_r, Forall_Forall2_diag, Forall_forall.
      intros x _. unfold compose. by destruct (String.eqb _ _).
    - cbn [Nat.iter]. unfold DocumentUpload.tick at 1.
      apply Forall2_fmap_r. eapply Forall2_impl; [exact IH|].
      intros before after. unfold compose. cbn beta.
      destruct (String.eqb (DocumentUpload.id before) _) eqn:E.
      + intros (Hp & Hs & Hi & Hf). rewrite Hi, E. cbn [andb].
        destruct (DocumentUpload.progress after <? 90)%Z eqn:Hlt; cbn.
        * apply Z.ltb_lt in Hlt. split; [lia|done].
        * apply Z.ltb_ge in Hlt. split; [lia|done].
      + intros ->. by rewrite E. }
  split; [exact Hd|].
  unfold DocumentUpload.finished. apply Forall2_fmap_r.
  eapply Forall2_impl; [exact Hd|].
  intros before after. unfold compose. cbn beta.
  destruct (String.eqb (DocumentUpload.id before) _) eqn:E.
  - intros (Hp & Hs & Hi & Hf). rewrite Hi, E.
    destruct (ok resp); cbn; [done|]. split; [lia|done].
  - intros ->. by rewrite E.
Qed.

(** ** The runner from any start *)

Lemma run_stages_found documentId l : forall e n w next d,
  store w !! document_key documentId = Some d ->
  exists n' w',
    run e n w (run_stages documentId l next) = run e n' w' next
    /\ store w' !! document_key documentId = Some (staged_through l d)
    /\ (forall key, key <> document_key documentId ->
          store w' !! key = store w !! key)
    /\ timers w' = timers w.
Proof.
  induction l as [|s l IH]; intros e n w next d Hd.
  - by exists n, w.
  - change (run_stages documentId (s :: l) next)
      with (run_stage documentId s (run_stages documentId l next)).
    rewrite (run_stage_found _ _ _ d Hd).
    destruct (IH e (3 + n)%nat (after_stage documentId s d w) next (staged s d))
      as (n' & w' & Hrun & Hdoc & Hst & Htm); [apply lookup_insert_eq|].
    exists n', w'. split; [done|]. split; [done|]. split; [|done].
    intros key Hk. rewrite Hst by done. cbn [after_stage store].
    by rewrite lookup_insert_ne.
Qed.

Lemma run_stages_missing documentId l : forall e n w next,
  store w !! document_key documentId = None ->
  exists n', run e n w (run_stages documentId l next) = run e n' w next.
Proof.
  induction l as [|s l IH]; intros e n w next Hd.
  - by exists n.
  - change (run_stages documentId (s :: l) next)
      with (run_stage documentId s (run_stages documentId l next)).
    rewrite (run_stage_missing _ _ _ Hd). by apply IH.
Qed.

Lemma get_staged_through k l d :
  k <> "analysis_status" -> k <> "analysis_progress" ->
  Js.get k (staged_through l d) = Js.get k d.
Proof.
  intros H1 H2. revert d. induction l as [|s l IH]; intros d; [done|].
  cbn [staged_through foldl]. fold (staged_through l (staged s d)).
  rewrite IH. by apply get_staged.
Qed.

(** X19.  A runner whose Document record is not in the store skips every
    status write without creating the record, and still writes the
    Analysis record of the identifier: at its end the store holds an
    analysis with no document beside it. *)
Theorem runner_without_document e n w documentId userId :
  store w !! document_key documentId = None ->
  let w' := (run e n w (simulateAnalysis documentId userId)).1 in
  store w' !! document_key documentId = None
  /\ writes_to (document_key documentId) w' = writes_to (document_key documentId) w
  /\ exists t, store w' !! analysis_key documentId
               = Some (mock_analysis documentId t).
Proof.
  intros Hd w'. subst w'. unfold simulateAnalysis.
  destruct (run_stages_missing documentId stages e n w
              (finish_analysis documentId userId) Hd) as [n' ->].
  destruct (finish_analysis_frame e n' w documentId userId)
    as (Ha & Hdoc & Hwr & _).
  split; [by rewrite Hdoc|]. split; [apply Hwr|]. by eexists.
Qed.

Lemma runner_without_document_witness :
  store (at_rest ∅) !! document_key "doc-7" = None
  /\ let w' := (run demo_env 0 (at_rest ∅) (simulateAnalysis "doc-7" "alice")).1 in
     store w' !! document_key "doc-7" = None
     /\ writes_to (document_key "doc-7") w' = writes_to (document_key "doc-7") (at_rest ∅)
     /\ exists t, store w' !! analysis_key "doc-7" = Some (mock_analysis "doc-7" t).
Proof.
  assert (H : store (at_rest ∅) !! document_key "doc-7" = None)
    by apply lookup_empty.
  split; [exact H|].
  exact (runner_without_document demo_env 0 (at_rest ∅) "doc-7" "alice" H).
Defined.

(** X20.  Whatever a Document record reads when its runner starts, at the
    end of the runner it reads complete/100, and every member other than
    the status and the progress, the owner, the name, the path and the
    upload time among them, is as it was. *)
Theorem runner_keeps_other_fields e n w documentId userId d :
  store w !! document_key documentId = Some d ->
  let w' := (run e n w (simulateAnalysis documentId userId)).1 in
  exists d',
    store w' !! document_key documentId = Some d'
    /\ reading d' = Some ("complete", 100)
    /\ (forall k, k <> "analysis_status" -> k <> "analysis_progress" ->
          Js.get k d' = Js.get k d).
Proof.
  intros Hd w'. subst w'. unfold simulateAnalysis.
  destruct (run_stages_found documentId stages e n w
              (finish_analysis documentId userId) d Hd)
    as (n' & w1 & -> & Hdoc & _ & _).
  destruct (finish_analysis_frame e n' w1 documentId userId)
    as (_ & Hsame & _ & _).
  exists (staged_through stages d). rewrite Hsame. split; [exact Hdoc|].
  split; [apply reading_staged|].
  intros k H1 H2. by apply get_staged_through.
Qed.

Lemma runner_keeps_other_fields_witness :
  let m : gmap string obj := {[ document_key "doc-2" := demo_document ]} in
  m !! document_key "doc-2" = Some demo_document
  /\ exists d',
       store (run demo_env 0 (at_rest m) (simulateAnalysis "doc-2" "alice")).1
         !! document_key "doc-2" = Some d'
       /\ reading d' = Some ("complete", 100)
       /\ Js.get "user_id" d' = Some (VStr "alice")
       /\ Js.get "name" d' = Some (VStr "lease.pdf").
Proof.
  intros m.
  assert (H : m !! document_key "doc-2" = Some demo_document)
    by apply lookup_singleton_eq.
  split; [exact H|].
  destruct (runner_keeps_other_fields demo_env 0 (at_rest m) "doc-2" "alice"
              demo_document H) as (d' & Hd' & Hread & Hrest).
  exists d'. split; [exact Hd'|]. split; [exact Hread|].
  split; rewrite Hrest; done.
Defined.

(** X21.  A runner touches three records at most: the Document and the
    Analysis of its identifier and the Profile of its user.  Every other
    key of the store reads after the runner as before, and the runner
    sets no timer. *)
Theorem runner_touches_its_own_records e n w documentId userId key :
  key ∉ [document_key documentId; analysis_key documentId; profile_key userId] ->
  let w' := (run e n w (simulateAnalysis documentId userId)).1 in
  store w' !! key = store w !! key /\ timers w' = timers w.
Proof.
  intros Hkey w'. subst w'. unfold simulateAnalysis.
  apply not_elem_of_cons in Hkey as [Hdoc Hkey].
  apply not_elem_of_cons in Hkey as [Hana Hkey].
  apply not_elem_of_cons in Hkey as [Hpro _].
  destruct (run_stages_frame documentId stages e n w
              (finish_analysis documentId userId))
    as (n' & w1 & -> & Hst & _ & Htm).
  rewrite <- (Hst key Hdoc), <- Htm. rewrite run_finish_analysis. cbn zeta.
  destruct (store w1 !! profile_key userId) as [p|]; [destruct (Js.add _ _)|];
    cbn [fst with_profile with_analysis store timers];
    rewrite ?(lookup_insert_ne (M:=gmap string)) by done; done.
Qed.

Lemma runner_touches_its_own_records_witness :
  let key := document_key "doc-b" in
  (key ∉ [document_key "doc-a"; analysis_key "doc-a"; profile_key "alice"])
  /\ let w' := (run demo_env 0 (at_rest demo_store) (simulateAnalysis "doc-a" "alice")).1 in
     store w' !! key = store (at_rest demo_store) !! key
     /\ timers w' = timers (at_rest demo_store).
Proof.
  intros key.
  assert (H : key ∉ [document_key "doc-a"; analysis_key "doc-a"; profile_key "alice"]).
  { repeat (apply not_elem_of_cons; split; [done|]). apply not_elem_of_nil. }
  split; [exact H|].
  exact (runner_touches_its_own_records demo_env 0 (at_rest demo_store)
           "doc-a" "alice" key H).
Defined.

(** X22.  A profile whose [documents_analyzed] is missing, null, zero,
    false or the empty text counts from zero: the runner stores it back
    with the counter 1. *)
Theorem counter_starts_from_zero e n w documentId userId p :
  store w !! profile_key userId = Some p ->
  Js.truthy (Js.get "documents_analyzed" p) = false ->
  let w' := (run e n w (simulateAnalysis documentId userId)).1 in
  store w' !! profile_key userId
  = Some (Js.set "documents_analyzed" (VInt 1) p).
Proof.
  intros Hp Hfalsy w'. subst w'. unfold simulateAnalysis.
  destruct (run_stages_frame documentId stages e n w
              (finish_analysis documentId userId))
    as (n' & w1 & -> & Hst & _ & _).
  rewrite run_finish_analysis. cbn zeta.
  rewrite (Hst (profile_key userId)) by auto with keys. rewrite Hp.
  assert (Hzero : Js.or_else (Js.get "documents_analyzed" p) (VInt 0) = VInt 0).
  { unfold Js.or_else. rewrite Hfalsy. by destruct (Js.get _ p). }
  rewrite Hzero, add_one. cbn [fst with_profile store].
  by rewrite lookup_insert_eq.
Qed.

Lemma counter_starts_from_zero_witness :
  let p : obj := [("id", VStr "alice"); ("documents_analyzed", VNull)] in
  let m : gmap string obj := {[ profile_key "alice" := p ]} in
  m !! profile_key "alice" = Some p
  /\ Js.truthy (Js.get "documents_analyzed" p) = false
  /\ store (run demo_env 0 (at_rest m) (simulateAnalysis "doc-7" "alice")).1
       !! profile_key "alice"
     = Some [("id", VStr "alice"); ("documents_analyzed", VInt 1)].
Proof.
  intros p m.
  assert (Hp : m !! profile_key "alice" = Some p) by apply lookup_singleton_eq.
  assert (Hf : Js.truthy (Js.get "documents_analyzed" p) = false) by reflexivity.
  split; [exact Hp|]. split; [exact Hf|].
  exact (counter_starts_from_zero demo_env 0 (at_rest m) "doc-7" "alice" p Hp Hf).
Defined.

(** ** From the upload to the analysis *)

Lemma run_get_analysis e n w userId documentId d :
  store w !! document_key documentId = Some d ->
  run e n w (get_analysis userId documentId)
  = (w, Returned
          (if owned_by userId d then
             json (member "analysis" (VObj <$> store w !! analysis_key documentId)) 200
           else error_json "Document not found" 404)).
Proof.
  intros Hd. cbn [get_analysis try_catch run]. unfold kv.get. rewrite Hd.
  by destruct (owned_by userId d).
Qed.

Lemma owned_by_owner userId d :
  Js.get "user_id" d = Some (VStr userId) -> owned_by userId d = true.
Proof.
  intros H. unfold owned_by, Js.is_string. rewrite H. cbn.
  apply String.eqb_refl.
Qed.

(** X23.  A valid upload followed by its runner: once the callback of the
    timer the upload set has run, the analysis route answers the owner 200
    with the mock analysis of the new identifier and any other user 404,
    and the owner's listing holds the document, complete at 100. *)
Theorem uploaded_document_is_analysed e n w userId form file e2 n2 e3 n3 :
  form_file form = Some file ->
  File.type file ∈ allowedTypes ->
  uploadError (e (S n)) = false ->
  let documentId := uuid (e (2 + n)%nat) in
  let w1 := (run e n w (upload_document userId (Some form))).1 in
  let w2 := (run e2 n2 w1 (callback (SimulateAnalysis documentId userId))).1 in
  (SimulateAnalysis documentId userId, 1000) ∈ timers w1
  /\ (exists t,
        run e3 n3 w2 (get_analysis userId documentId)
        = (w2, Returned (json [("analysis", VObj (mock_analysis documentId t))] 200)))
  /\ (forall other, other <> userId ->
        run e3 n3 w2 (get_analysis other documentId)
        = (w2, Returned (error_json "Document not found" 404)))
  /\ (exists docs d,
        run e3 n3 w2 (get_documents userId)
        = (w2, Returned (json [("documents", VArr (VObj <$> docs))] 200))
        /\ d ∈ docs
        /\ Js.get "id" d = Some (VStr documentId)
        /\ reading d = Some ("complete", 100)).
Proof.
  intros Hfile Htype Hup documentId w1 w2.
  destruct (display_name_file form file Hfile) as [fileName Hname].
  apply includes_elem_of in Htype.
  destruct (run_upload_document e n w userId form file fileName Hfile Hname Htype)
    as [Hrun _].
  rewrite Hup in Hrun. cbn zeta in Hrun. fold documentId in Hrun.
  set (d0 := new_document _ _ _ _ _ _) in Hrun.
  assert (Hw1 : w1 = with_document documentId userId d0 w).
  { unfold w1. by rewrite Hrun. }
  clearbody w1. subst w1.
  assert (Hd0 : store (with_document documentId userId d0 w)
                  !! document_key documentId = Some d0) by apply lookup_insert_eq.
  unfold callback, simulateAnalysis in w2.
  destruct (run_stages_found documentId stages e2 n2 _
              (finish_analysis documentId userId) d0 Hd0)
    as (n' & w' & Hstages & Hdoc & _ & _).
  destruct (finish_analysis_frame e2 n' w' documentId userId)
    as (Hana & Hsame & _ & _).
  rewrite <- Hstages in Hana, Hsame. fold w2 in Hana, Hsame.
  clearbody w2.
  set (d := staged_through stages d0) in *.
  assert (Hd : store w2 !! document_key documentId = Some d)
    by (by rewrite Hsame).
  assert (Huser : Js.get "user_id" d = Some (VStr userId))
    by (unfold d; by rewrite get_staged_through).
  split; [|split; [|split]].
  - cbn [with_document timers]. apply elem_of_app. right. apply list_elem_of_here.
  - eexists. rewrite (run_get_analysis _ _ _ _ _ d Hd).
    by rewrite (owned_by_owner _ _ Huser), Hana.
  - intros other Hother. rewrite (run_get_analysis _ _ _ _ _ d Hd).
    by rewrite (owned_by_other other userId d Huser).
  - eexists _, d. split; [reflexivity|]. split; [|split].
    + rewrite sort_by_perm. apply list_elem_of_In, filter_In. split.
      * apply list_elem_of_In, elem_of_getByPrefix. by exists documentId.
      * by apply owned_by_owner.
    + unfold d. by rewrite get_staged_through.
    + apply reading_staged.
Qed.

Lemma uploaded_document_is_analysed_witness :
  let form := {| form_file := Some demo_file; form_fileName := Some "lease.pdf" |} in
  let w1 := (run demo_env 0 (at_rest ∅) (upload_document "alice" (Some form))).1 in
  let w2 := (run demo_env 7 w1 (callback (SimulateAnalysis "doc-2" "alice"))).1 in
  form_file form = Some demo_file
  /\ File.type demo_file ∈ allowedTypes
  /\ uploadError (demo_env 1) = false
  /\ (exists t,
        run demo_env 30 w2 (get_analysis "alice" "doc-2")
        = (w2, Returned (json [("analysis", VObj (mock_analysis "doc-2" t))] 200)))
  /\ run demo_env 30 w2 (get_analysis "bob" "doc-2")
     = (w2, Returned (error_json "Document not found" 404)).
Proof.
  intros form w1 w2.
  assert (Hfile : form_file form = Some demo_file) by reflexivity.
  assert (Htype : File.type demo_file ∈ allowedTypes) by (by repeat constructor).
  assert (Hup : uploadError (demo_env 1) = false) by reflexivity.
  split; [exact Hfile|]. split; [exact Htype|]. split; [exact Hup|].
  destruct (uploaded_document_is_analysed demo_env 0 (at_rest ∅) "alice" form
              demo_file demo_env 7 demo_env 30 Hfile Htype Hup)
    as (_ & Hown & Hother & _).
  split; [exact Hown|]. apply Hother. done.
Defined.

(** ** Records over the life of the system *)

(** What one move of the system does to the store: nothing, or what one
    call of a task does while the store shows what the task holds, or the
    deletion of a Document record. *)
Lemma step_store b s s' :
  invariant b s -> step b s s' ->
  store (sys s') = store (sys s)
  \/ (exists h h' iss',
        shows b (store (sys s)) h
        /\ moves h (store (sys s)) (issued s) h' (store (sys s')) iss')
  \/ (b = true
      /\ exists documentId,
           store (sys s') = delete (document_key documentId) (store (sys s))).
Proof.
  intros (hs & Hall & Hco) Hstep.
  destruct Hstep as [s r|s l1 l2 t a w' t' Hpool Hex Hfresh|s l1 l2 c ms Htm
                    |s documentId Hdel]; cbn [sys store].
  - by left.
  - rewrite Hpool in Hall.
    apply Forall2_app_inv_l in Hall as (hs1 & hs' & H1 & Hall & ->).
    apply Forall2_cons_inv_l in Hall as (h & hs2 & Hh & H2 & ->).
    assert (Hstamp : forall i d,
              store (sys s) !! document_key i = Some d -> stamped d).
    { intros i d Hd. destruct Hco as (_ & _ & _ & _ & _ & Hpath).
      by destruct (Hpath i d Hd). }
    assert (Hshows : shows b (store (sys s)) h).
    { destruct Hco as (_ & _ & Hsh & _).
      rewrite <- app_assoc in Hsh. apply Forall_app in Hsh as [_ Hsh].
      by apply Forall_cons in Hsh as [Hsh _]. }
    destruct t as [p|p]; cbn in Hex, Hfresh, Hh;
      destruct (exec_head a (sys s) p) as [[w1 p1]|] eqn:E; try discriminate;
      injection Hex as <- <-;
      destruct (exec_follows h p p1 a (sys s) w1 (issued s) Hstamp Hh E Hfresh)
        as (h' & _ & [[_ Hmv]|(i & u & ms & _ & _ & Hst & _)]);
      try (by left); right; left; by eexists _, _, _.
  - by left.
  - right. right. split; [done|]. by exists documentId.
Qed.

Lemma moves_keep_analysis b h m iss h' m' iss' :
  moves h m iss h' m' iss' -> shows b m h ->
  forall i a, m !! analysis_key i = Some a -> m' !! analysis_key i = Some a.
Proof.
  intros Hmv Hsh i a Ha.
  destruct Hmv as [h m iss|documentId j m iss Hnone|documentId m iss Hfresh
                  |h key v m iss [u ->]|documentId v m iss Hv Hs
                  |documentId j entry v m iss He Hv Hs|documentId v m iss];
    try done.
  - by rewrite lookup_insert_ne by auto with keys.
  - rewrite lookup_insert_ne; [done|]. intros H. by eapply analysis_not_document.
  - rewrite lookup_insert_ne; [done|]. intros H. by eapply analysis_not_document.
  - destruct Hsh as [Hnone _].
    rewrite lookup_insert_ne; [done|]. intros H.
    apply analysis_key_inj in H as ->. congruence.
Qed.

Lemma moves_keep_documents h m iss h' m' iss' :
  moves h m iss h' m' iss' ->
  forall i, is_Some (m !! document_key i) -> is_Some (m' !! document_key i).
Proof.
  intros Hmv i Hd.
  destruct Hmv as [h m iss|documentId j m iss Hnone|documentId m iss Hfresh
                  |h key v m iss [u ->]|documentId v m iss Hv Hs
                  |documentId j entry v m iss He Hv Hs|documentId v m iss];
    try done.
  - by rewrite lookup_insert_ne by auto with keys.
  - destruct (decide (i = documentId)) as [->|Hne].
    + rewrite lookup_insert_eq. by eexists.
    + by rewrite document_lookup_insert.
  - destruct (decide (i = documentId)) as [->|Hne].
    + rewrite lookup_insert_eq. by eexists.
    + by rewrite document_lookup_insert.
  - rewrite lookup_insert_ne; [done|]. intros H. by eapply analysis_not_document.
Qed.

Lemma reachable_rtc b s s' :
  reachable b s -> rtc (step b) s s' -> reachable b s'.
Proof.
  intros Hs Hsteps. induction Hsteps as [s|s s1 s' Hstep _ IH]; [done|].
  apply IH. by eapply reachable_step.
Qed.

(** X24.  An Analysis record is written once: from a reachable state on,
    whatever the system does next, requests, runners, timers and
    deletions of Document records included, an Analysis record of the
    store stays in the store as it is. *)
Theorem analysis_is_never_rewritten deletions s s' documentId a :
  reachable deletions s ->
  rtc (step deletions) s s' ->
  store (sys s) !! analysis_key documentId = Some a ->
  store (sys s') !! analysis_key documentId = Some a.
Proof.
  intros Hs Hsteps. induction Hsteps as [s|s s1 s' Hstep _ IH]; [done|].
  intros Ha. apply IH; [by eapply reachable_step|].
  destruct (step_store deletions s s1 (reachable_invariant _ _ Hs) Hstep)
    as [->|[(h & h' & iss' & Hsh & Hmv)|(_ & i & ->)]]; [done| |].
  - by eapply moves_keep_analysis.
  - rewrite lookup_delete_ne; [done|]. intros H. by eapply analysis_not_document.
Qed.

Lemma analysis_is_never_rewritten_witness :
  reachable false state_end
  /\ rtc (step false) state_end
       {| sys := sys state_end;
          pool := pool state_end ++ [Handler (app_fetch demo_upload)];
          issued := issued state_end |}
  /\ exists a,
       store (sys state_end) !! analysis_key "doc-7" = Some a
       /\ store (sys {| sys := sys state_end;
                        pool := pool state_end ++ [Handler (app_fetch demo_upload)];
                        issued := issued state_end |})
            !! analysis_key "doc-7" = Some a.
Proof.
  assert (Hs : reachable false state_end).
  { exact (play_reachable false _ _ _ (reachable_boot false) play_state_end). }
  assert (Hsteps : rtc (step false) state_end
       {| sys := sys state_end;
          pool := pool state_end ++ [Handler (app_fetch demo_upload)];
          issued := issued state_end |}).
  { apply rtc_once. apply step_request. }
  split; [exact Hs|]. split; [exact Hsteps|].
  destruct (store (sys state_end) !! analysis_key "doc-7") as [a|] eqn:Ha;
    [|by vm_compute in Ha].
  exists a. split; [reflexivity|].
  exact (analysis_is_never_rewritten false state_end _ "doc-7" a Hs Hsteps Ha).
Defined.

Lemma step_progress s s' documentId d :
  reachable false s -> step false s s' ->
  store (sys s) !! document_key documentId = Some d ->
  exists d' e e',
    store (sys s') !! document_key documentId = Some d'
    /\ reading d = Some e /\ reading d' = Some e' /\ e.2 <= e'.2.
Proof.
  intros Hs Hstep Hd.
  pose proof (reachable_invariant _ _ Hs) as Hinv.
  destruct (step_invariant false s s' Hinv Hstep) as [_ Hkept].
  assert (Hd' : is_Some (store (sys s') !! document_key documentId)).
  { destruct (step_store false s s' Hinv Hstep)
      as [->|[(h & h' & iss' & Hsh & Hmv)|(Hdel & _)]]; [by eexists| |done].
    eapply moves_keep_documents; [exact Hmv|by eexists]. }
  destruct Hd' as [d' Hd']. exists d'.
  destruct (Hkept documentId d d' Hd Hd') as (e & e' & He & He' & Hle).
  by exists e, e'.
Qed.

(** X25.  When no Document record is deleted, a Document record never
    leaves the store and its progress never goes down, over any number of
    moves of the system from a reachable state; a record that reads
    complete/100 reads complete/100 ever after. *)
Theorem progress_only_grows s s' documentId d :
  reachable false s ->
  rtc (step false) s s' ->
  store (sys s) !! document_key documentId = Some d ->
  exists d' e e',
    store (sys s') !! document_key documentId = Some d'
    /\ reading d = Some e /\ reading d' = Some e'
    /\ e ∈ stage_path /\ e' ∈ stage_path
    /\ e.2 <= e'.2
    /\ (e = ("complete", 100) -> e' = ("complete", 100)).
Proof.
  intros Hs Hsteps Hd.
  assert (Hmain : exists d' e e',
    store (sys s') !! document_key documentId = Some d'
    /\ reading d = Some e /\ reading d' = Some e' /\ e.2 <= e'.2).
  { revert d Hd. induction Hsteps as [s|s s1 s' Hstep _ IH]; intros d Hd.
    - destruct (reachable_invariant _ _ Hs) as (hs & _ & _ & _ & _ & _ & _ & Hpath).
      destruct (Hpath documentId d Hd) as [(e & _ & He) _].
      exists d, e, e. split; [done|]. split; [done|]. split; [done|]. lia.
    - destruct (step_progress s s1 documentId d Hs Hstep Hd)
        as (d1 & e & e1 & Hd1 & He & He1 & Hle).
      destruct (IH (reachable_step _ _ _ Hs Hstep) d1 Hd1)
        as (d' & e1' & e' & Hd' & He1' & He' & Hle').
      exists d', e, e'. split; [done|]. split; [done|]. split; [done|].
      assert (e1' = e1) as -> by congruence. lia. }
  destruct Hmain as (d' & e & e' & Hd' & He & He' & Hle).
  exists d', e, e'. split; [done|]. split; [done|]. split; [done|].
  destruct (reachable_invariant _ _ Hs) as (hs & _ & _ & _ & _ & _ & _ & Hpath).
  destruct (reachable_invariant _ _ (reachable_rtc _ _ _ Hs Hsteps))
    as (hs' & _ & _ & _ & _ & _ & _ & Hpath').
  destruct (Hpath documentId d Hd) as [(x & Hx & Hrx) _].
  destruct (Hpath' documentId d' Hd') as [(x' & Hx' & Hrx') _].
  assert (x = e) as -> by congruence. assert (x' = e') as -> by congruence.
  split; [done|]. split; [done|]. split; [done|].
  intros ->. cbn in Hle.
  apply list_elem_of_In in Hx'. cbn in Hx'.
  destruct Hx' as [<-|[<-|[<-|[<-|[<-|[]]]]]]; cbn in Hle; try lia. done.
Qed.

Lemma play_rtc b ms : forall s s',
  play b s ms = Some s' -> rtc (step b) s s'.
Proof.
  induction ms as [|m ms IH]; intros s s' H; cbn in H.
  - injection H as <-. apply rtc_refl.
  - destruct (play_move b s m) as [s1|] eqn:E; [|done].
    eapply rtc_l; [by eapply play_move_step|by apply IH].
Qed.

Lemma progress_only_grows_witness :
  reachable false state_overlap_start
  /\ rtc (step false) state_overlap_start state_overlap_end
  /\ exists d d',
       store (sys state_overlap_start) !! document_key "doc-8" = Some d
       /\ store (sys state_overlap_end) !! document_key "doc-8" = Some d'
       /\ reading d = Some ("pending", 0)
       /\ reading d' = Some ("complete", 100).
Proof.
  assert (Hs : reachable false state_overlap_start).
  { exact (play_reachable false _ _ _ (reachable_boot false)
             play_state_overlap_start). }
  assert (Hsteps : rtc (step false) state_overlap_start state_overlap_end).
  { exact (play_rtc false _ _ _ play_state_overlap_end). }
  split; [exact Hs|]. split; [exact Hsteps|].
  destruct (store (sys state_overlap_start) !! document_key "doc-8")
    as [d|] eqn:Hd; [|by vm_compute in Hd].
  destruct (progress_only_grows state_overlap_start state_overlap_end "doc-8" d
              Hs Hsteps Hd) as (d' & e & e' & Hd' & He & He' & _ & _ & Hle & _).
  exists d, d'. split; [reflexivity|]. split; [exact Hd'|].
  vm_compute in Hd. injection Hd as <-.
  vm_compute in Hd'. injection Hd' as <-.
  split; reflexivity.
Defined.

(** ** The dashboard *)

Lemma filter_split {A} (p q : A -> bool) (l : list A) :
  Forall (fun x => q x = negb (p x)) l ->
  List.filter p l ++ List.filter q l ≡ₚ l.
Proof.
  induction 1 as [|x l Hx _ IH]; cbn [List.filter]; [done|].
  rewrite Hx. destruct (p x); cbn [negb app].
  - by rewrite IH.
  - rewrite <- Permutation_middle. by rewrite IH.
Qed.

(** X26.  In every reachable state, the listing a user is served splits
    into the two lists of the dashboard: every document is either among
    the completed ones or among those in progress, never in both and
    never in neither, and its status badge has the colour of complete, of
    pending or of a running stage; the colours of an error and of an
    unknown status are never shown. *)
Theorem dashboard_shows_every_document deletions s e n userId :
  reachable deletions s ->
  exists docs,
    run e n (sys s) (get_documents userId)
    = (sys s, Returned (json [("documents", VArr (VObj <$> docs))] 200))
    /\ Dashboard.completedDocuments docs ++ Dashboard.processingDocuments docs
       ≡ₚ docs
    /\ Forall
         (fun doc =>
            exists status,
              Js.get "analysis_status" doc = Some (VStr status)
              /\ Dashboard.getStatusColor status
                 ∈ [ "bg-green-100 text-green-800";
                     "bg-yellow-100 text-yellow-800";
                     "bg-blue-100 text-blue-800" ])
         docs.
Proof.
  intros Hs. eexists. split; [reflexivity|].
  set (docs := sort_by _ _).
  assert (Hdocs : Forall (fun d => exists entry,
                     entry ∈ stage_path /\ reading d = Some entry) docs).
  { apply Forall_forall. intros d Hd. unfold docs in Hd.
    rewrite sort_by_perm in Hd. apply list_elem_of_In, filter_In in Hd as [Hd _].
    apply list_elem_of_In, elem_of_getByPrefix in Hd as [i Hd].
    fold (document_key i) in Hd.
    destruct (reachable_invariant _ _ Hs) as (hs & _ & _ & _ & _ & _ & _ & Hpath).
    by destruct (Hpath i d Hd). }
  assert (Hstatus : Forall (fun d => exists st,
             Js.get "analysis_status" d = Some (VStr st)
             /\ st ∈ ["pending"; "extracting"; "classifying"; "analyzing";
                      "complete"]) docs).
  { eapply Forall_impl; [exact Hdocs|]. intros d ([st p] & Hin & Hr).
    exists st. split; [by apply reading_status in Hr|].
    apply list_elem_of_In in Hin. cbn in Hin.
    destruct Hin as [H|[H|[H|[H|[H|[]]]]]]; injection H as <- <-;
      by repeat constructor. }
  split.
  - apply filter_split. eapply Forall_impl; [exact Hstatus|].
    intros d (st & Hst & Hin). unfold Js.is_string. cbn [existsb].
    unfold Js.is_string. rewrite Hst. cbn [Js.as_string].
    apply list_elem_of_In in Hin. cbn in Hin.
    destruct Hin as [<-|[<-|[<-|[<-|[<-|[]]]]]]; reflexivity.
  - eapply Forall_impl; [exact Hstatus|].
    intros d (st & Hst & Hin). exists st. split; [done|].
    apply list_elem_of_In in Hin. cbn in Hin.
    destruct Hin as [<-|[<-|[<-|[<-|[<-|[]]]]]]; by repeat constructor.
Qed.

Lemma dashboard_shows_every_document_witness :
  reachable false state_overlap_end
  /\ exists docs,
       run demo_env 0 (sys state_overlap_end) (get_documents "alice")
       = (sys state_overlap_end,
          Returned (json [("documents", VArr (VObj <$> docs))] 200))
       /\ Dashboard.completedDocuments docs ++ Dashboard.processingDocuments docs
          ≡ₚ docs
       /\ length docs = 2%nat.
Proof.
  assert (Hs : reachable false state_overlap_end).
  { eapply play_reachable; [|exact play_state_overlap_end].
    exact (play_reachable false _ _ _ (reachable_boot false)
             play_state_overlap_start). }
  split; [exact Hs|].
  destruct (dashboard_shows_every_document false state_overlap_end demo_env 0
              "alice" Hs) as (docs & Hrun & Hsplit & _).
  exists docs. split; [exact Hrun|]. split; [exact Hsplit|].
  assert (Hlen : match (run demo_env 0 (sys state_overlap_end)
                           (get_documents "alice")).2 with
                 | Returned r => match body r with
                                 | [(_, VArr l)] => length l
                                 | _ => 0%nat
                                 end
                 | _ => 0%nat
                 end = 2%nat) by (vm_compute; reflexivity).
  rewrite Hrun in Hlen. cbn [snd body json] in Hlen.
  by rewrite length_fmap in Hlen.
Defined.

(** ** What a Document record says of its file *)

(** X27.  The Document a valid upload creates records the file as it was
    stored: its name is the [fileName] entry of the form, or the file's
    own name when the entry is missing or empty; its path is the path the
    file was handed to the storage under; its type and size are the
    file's; its upload time is the clock read after the storage call. *)
Theorem document_records_the_file e n w userId form file :
  form_file form = Some file ->
  File.type file ∈ allowedTypes ->
  uploadError (e (S n)) = false ->
  exists d path,
    (run e n w (upload_document userId (Some form))).2
    = Returned (json [("document", VObj d)] 200)
    /\ uploads e n w (upload_document userId (Some form)) = [(path, file)]
    /\ Js.get "name" d
       = Some (VStr match form_fileName form with
                    | Some s => if String.eqb s "" then File.name file else s
                    | None => File.name file
                    end)
    /\ Js.get "file_path" d = Some (VStr path)
    /\ Js.get "file_type" d = Some (VStr (File.type file))
    /\ Js.get "file_size" d = Some (VInt (File.size file))
    /\ Js.get "uploaded_at" d = Some (VTime (now (e (3 + n)%nat))).
Proof.
  intros Hfile Htype Hup. apply includes_elem_of in Htype.
  set (fileName := match form_fileName form with
                   | Some s => if String.eqb s "" then File.name file else s
                   | None => File.name file
                   end).
  assert (Hname : display_name form = Some fileName).
  { unfold display_name, fileName. rewrite Hfile.
    destruct (form_fileName form) as [s|]; [|done].
    by destruct (String.eqb s ""). }
  destruct (run_upload_document e n w userId form file fileName Hfile Hname Htype)
    as [Hrun Hups].
  rewrite Hrun, Hup, Hups. cbn [snd]. by eexists _, _.
Qed.

Lemma document_records_the_file_witness :
  let form := {| form_file := Some demo_file; form_fileName := Some "" |} in
  form_file form = Some demo_file
  /\ File.type demo_file ∈ allowedTypes
  /\ uploadError (demo_env 1) = false
  /\ exists d path,
       (run demo_env 0 (at_rest ∅) (upload_document "alice" (Some form))).2
       = Returned (json [("document", VObj d)] 200)
       /\ Js.get "name" d = Some (VStr "lease.pdf")
       /\ Js.get "file_path" d = Some (VStr path)
       /\ Js.get "file_size" d = Some (VInt 52133).
Proof.
  intros form.
  assert (Hfile : form_file form = Some demo_file) by reflexivity.
  assert (Htype : File.type demo_file ∈ allowedTypes) by (by repeat constructor).
  assert (Hup : uploadError (demo_env 1) = false) by reflexivity.
  split; [exact Hfile|]. split; [exact Htype|]. split; [exact Hup|].
  destruct (document_records_the_file demo_env 0 (at_rest ∅) "alice" form
              demo_file Hfile Htype Hup)
    as (d & path & Hrun & _ & Hname & Hpath & _ & Hsize & _).
  exists d, path. split; [exact Hrun|]. split; [exact Hname|].
  split; [exact Hpath|exact Hsize].
Defined.
